(** * FirstRound.AI phone interview service: the call-session state machine

    A shallow embedding of [src/agent/bot.py]: the session registry
    [interview_contexts], the turn handler [process_response], the
    evaluation engine [evaluate_interview], the finalisation handler
    [twilio_status_callback], the log writer [save_conversation_log] and
    the call initiation [start_phone_interview].

    Python objects live in a heap and the registry holds references to
    them, so that a mutation made through the local variable [context] is
    seen through the registry, as in the source.  Handlers are written in a
    state-and-exception monad: the state survives a raised exception, as a
    Python process survives a failed request.

    What the outside world answers (the completion of the OpenAI client,
    the call created by the Twilio client, the clock) is an argument of the
    handler that asks for it.  Each request is served in one piece; the
    messages sent to the logger are left out, and so is a failure of the
    file system under [LOGS_DIR]. *)

From Stdlib Require Import ZArith QArith Ascii String List Lia Sorted.
From stdpp Require Import base option list strings gmap pretty.

Set Warnings "-register-all".
Local Open Scope string_scope.
Local Open Scope list_scope.
Local Open Scope nat_scope.

(** ** Python strings *)

Module PyStr.

(** [s[:n]] *)
Fixpoint slice_to (n : nat) (s : string) : string :=
  match n, s with
  | S n', String c s' => String c (slice_to n' s')
  | _, _ => EmptyString
  end.

(** [s.startswith(p)] *)
Fixpoint startswith (p s : string) : bool :=
  match p, s with
  | EmptyString, _ => true
  | String a p', String b s' => if Ascii.eqb a b then startswith p' s' else false
  | String _ _, EmptyString => false
  end.

(** [sub in s] *)
Fixpoint contains (sub s : string) : bool :=
  if startswith sub s then true
  else match s with
       | EmptyString => false
       | String _ s' => contains sub s'
       end.

(** [s.split(sep)] for a non-empty [sep]: a left-to-right scan for
    non-overlapping occurrences.  [skip] counts the characters of a
    matched separator that are still to be dropped and [cur] holds the
    piece being read, last character first. *)
Fixpoint split_go (sep : string) (skip : nat) (cur : string) (s : string) : list string :=
  match s with
  | EmptyString => [String.rev cur]
  | String c s' =>
      match skip with
      | S k => split_go sep k cur s'
      | O =>
          if startswith sep s
          then String.rev cur :: split_go sep (String.length sep - 1) EmptyString s'
          else split_go sep O (String c cur) s'
      end
  end.

Definition split (sep s : string) : list string := split_go sep 0 EmptyString s.

(** [c.isspace()] for the characters below 256: tab to carriage return,
    the four separators 0x1c..0x1f, space, NEL and the no-break space. *)
Definition isspace (c : ascii) : bool :=
  let n := nat_of_ascii c in
  (((9 <=? n) && (n <=? 13)) || ((28 <=? n) && (n <=? 32))
   || (n =? 133) || (n =? 160))%nat.

Fixpoint lstrip (s : string) : string :=
  match s with
  | String c s' => if isspace c then lstrip s' else s
  | EmptyString => EmptyString
  end.

(** [s.strip()] *)
Definition strip (s : string) : string :=
  String.rev (lstrip (String.rev (lstrip s))).

End PyStr.

(** ** JSON values, as [json.loads] builds them *)

Inductive json : Type :=
| JNull
| JBool (b : bool)
| JInt (n : Z)
| JFloat (bits : Z)          (* a Python float, by its binary64 bit pattern *)
| JStr (s : string)
| JArr (items : list json)
| JObj (fields : list (string * json)).

(** [d.get(key)] on a dict that came out of [json.loads] *)
Fixpoint assoc_get (key : string) (fields : list (string * json)) : option json :=
  match fields with
  | [] => None
  | (k, v) :: rest => if String.eqb k key then Some v else assoc_get key rest
  end.

(** ** Exceptions *)

Inductive exn : Type :=
| KeyError (key : string)
| IndexError
| TypeError
| AttributeError
| JSONDecodeError
| APIError (msg : string)            (* the OpenAI client failed *)
| TwilioException (msg : string)     (* the Twilio client failed *)
| HTTPException (status_code : nat) (detail : string)
| SystemError.                       (* a reference to no object *)

(** [str(e)] *)
Definition exn_str (e : exn) : string :=
  match e with
  | KeyError key => "'" +:+ key +:+ "'"
  | IndexError => "list index out of range"
  | TypeError => "'NoneType' object is not subscriptable"
  | AttributeError => "'NoneType' object has no attribute 'strip'"
  | JSONDecodeError => "Expecting value"
  | APIError msg => msg
  | TwilioException msg => msg
  | HTTPException _ detail => detail
  | SystemError => "bad reference"
  end.

Inductive result (A : Type) : Type :=
| Ok (a : A)
| Raise (e : exn).
Arguments Ok {A} a.
Arguments Raise {A} e.

(** ** The data model *)

(** A transcript entry [{"role": ..., "content": ...}].  The role is
    ["user"] for the candidate and ["assistant"] for the interviewer; the
    content of an assistant entry is what the completion carried, which may
    be [None]. *)
Inductive role : Type := user | assistant.

Record message : Type := Message { msg_role : role; msg_content : option string }.

(** The per-call dict kept in [interview_contexts]; every key is optional,
    as the source reads each one with [.get]. *)
Record context : Type := Context {
  jd : option string;
  resume : option string;
  conversation : option (list message);
  evaluation : option json
}.

(** The dict of [save_conversation_log], one per write to the log directory. *)
Record log_data : Type := LogData {
  log_call_sid : string;
  log_timestamp : string;
  log_status : string;
  log_job_description : string;
  log_resume_summary : string;
  log_conversation : list message;
  log_exchange_count : nat;
  log_evaluation : json
}.

(** The body of the PATCH request of [update_application_status]. *)
Record patch : Type := Patch {
  patch_call_sid : string;
  patch_status : string;
  patch_evaluation : json;
  patch_interviewedAt : string
}.

(** a reference to a context dict: its index in the heap *)
Abbreviation loc := nat (only parsing).

Record state : Type := State {
  heap : list context;                   (* the context dicts, by reference *)
  interview_contexts : gmap string loc;  (* the module-level registry *)
  log_writes : list log_data;            (* writes to LOGS_DIR, oldest first *)
  eval_calls : list string;              (* evaluate_interview invocations *)
  patches : list patch                   (* PATCH requests issued *)
}.

Definition init : state :=
  {| heap := []; interview_contexts := ∅; log_writes := [];
     eval_calls := []; patches := [] |}.

Definition set_heap (h : list context) (s : state) : state :=
  {| heap := h; interview_contexts := interview_contexts s;
     log_writes := log_writes s; eval_calls := eval_calls s; patches := patches s |}.

Definition set_interview_contexts (r : gmap string loc) (s : state) : state :=
  {| heap := heap s; interview_contexts := r;
     log_writes := log_writes s; eval_calls := eval_calls s; patches := patches s |}.

Definition set_log_writes (w : list log_data) (s : state) : state :=
  {| heap := heap s; interview_contexts := interview_contexts s;
     log_writes := w; eval_calls := eval_calls s; patches := patches s |}.

Definition set_eval_calls (w : list string) (s : state) : state :=
  {| heap := heap s; interview_contexts := interview_contexts s;
     log_writes := log_writes s; eval_calls := w; patches := patches s |}.

Definition set_patches (w : list patch) (s : state) : state :=
  {| heap := heap s; interview_contexts := interview_contexts s;
     log_writes := log_writes s; eval_calls := eval_calls s; patches := w |}.

(** ** The state-and-exception monad *)

Definition M (A : Type) : Type := state -> result A * state.

Definition ret {A} (a : A) : M A := fun s => (Ok a, s).

Definition bind {A B} (m : M A) (k : A -> M B) : M B :=
  fun s => match m s with
           | (Ok a, s') => k a s'
           | (Raise e, s') => (Raise e, s')
           end.

Definition raise {A} (e : exn) : M A := fun s => (Raise e, s).

(** [try: body  except Exception as e: handler e] *)
Definition try_except {A} (body : M A) (handler : exn -> M A) : M A :=
  fun s => match body s with
           | (Ok a, s') => (Ok a, s')
           | (Raise e, s') => handler e s'
           end.

Declare Scope py_scope.
Delimit Scope py_scope with py.
Notation "x <- m ; k" := (bind m (fun x => k))
  (at level 100, m at next level, right associativity) : py_scope.
Notation "m ;; k" := (bind m (fun _ => k))
  (at level 100, right associativity) : py_scope.
Local Open Scope py_scope.

(** *** Objects and the registry *)

(** a dict display [{...}]: a new object *)
Definition new_dict (c : context) : M loc :=
  fun s => (Ok (length (heap s)), set_heap (heap s ++ [c]) s).

Definition deref (l : loc) : M context :=
  fun s => match heap s !! l with
           | Some c => (Ok c, s)
           | None => (Raise SystemError, s)
           end.

(** an assignment or an [append] through a reference *)
Definition update (l : loc) (f : context -> context) : M unit :=
  fun s => (Ok tt, set_heap (alter f l (heap s)) s).

(** [interview_contexts.get(key)] *)
Definition registry_get (key : string) : M (option loc) :=
  fun s => (Ok (interview_contexts s !! key), s).

(** [interview_contexts[key] = l] *)
Definition registry_set (key : string) (l : loc) : M unit :=
  fun s => (Ok tt, set_interview_contexts (<[key := l]> (interview_contexts s)) s).

(** [interview_contexts.pop(key)] *)
Definition registry_pop (key : string) : M loc :=
  fun s => match interview_contexts s !! key with
           | Some l => (Ok l, set_interview_contexts (delete key (interview_contexts s)) s)
           | None => (Raise (KeyError key), s)
           end.

(** [del interview_contexts[key]] *)
Definition registry_del (key : string) : M unit :=
  _ <- registry_pop key; ret tt.

Definition write_log (r : log_data) : M unit :=
  fun s => (Ok tt, set_log_writes (log_writes s ++ [r]) s).

Definition note_eval_call (call_sid : string) : M unit :=
  fun s => (Ok tt, set_eval_calls (eval_calls s ++ [call_sid]) s).

Definition send_patch (p : patch) : M unit :=
  fun s => (Ok tt, set_patches (patches s ++ [p]) s).

(** [xs[i]] *)
Definition index {A} (xs : list A) (i : nat) : M A :=
  match xs !! i with
  | Some x => ret x
  | None => raise IndexError
  end.

(** *** Setters of the context dict *)

Definition set_conversation (t : list message) (c : context) : context :=
  {| jd := jd c; resume := resume c; conversation := Some t; evaluation := evaluation c |}.

Definition set_evaluation (e : json) (c : context) : context :=
  {| jd := jd c; resume := resume c; conversation := conversation c; evaluation := Some e |}.

(** [context["conversation"]] *)
Definition get_conversation (l : loc) : M (list message) :=
  c <- deref l;
  match conversation c with
  | Some t => ret t
  | None => raise (KeyError "conversation")
  end.

(** [context["conversation"].append(m)] *)
Definition conversation_append (l : loc) (m : message) : M unit :=
  t <- get_conversation l;
  update l (set_conversation (t ++ [m])).

(** ** [datetime.now().isoformat()]

    The format is the one the Python library documents for a naive
    [datetime]: [YYYY-MM-DDTHH:MM:SS.ffffff], the fraction being dropped
    when the microsecond is 0. *)

Module Datetime.

Record datetime : Type := {
  year : nat; month : nat; day : nat;
  hour : nat; minute : nat; second : nat; microsecond : nat
}.

(** the class invariant of [datetime] *)
Definition valid (d : datetime) : Prop :=
  1 <= year d < 10 * 1000 /\ 1 <= month d <= 12 /\ 1 <= day d <= 31 /\
  hour d < 24 /\ minute d < 60 /\ second d < 60 /\ microsecond d < 1000 * 1000.

Definition digit (n : nat) : ascii := ascii_of_nat (48 + n mod 10).

(** ["%0<width>d" % n] for [n < 10 ^ width], the most significant digit first *)
Fixpoint zero_pad (width n : nat) : string :=
  match width with
  | O => EmptyString
  | S w => String (digit (n / 10 ^ w)) (zero_pad w n)
  end.

Definition isoformat (d : datetime) : string :=
  zero_pad 4 (year d) +:+ "-" +:+ zero_pad 2 (month d) +:+ "-" +:+ zero_pad 2 (day d)
  +:+ "T" +:+ zero_pad 2 (hour d) +:+ ":" +:+ zero_pad 2 (minute d)
  +:+ ":" +:+ zero_pad 2 (second d)
  +:+ (if (microsecond d =? 0)%nat then "" else "." +:+ zero_pad 6 (microsecond d)).

(** *** The ISO 8601 extended format [YYYY-MM-DDThh:mm:ss[.ffffff]] *)

Definition is_digit (c : ascii) : bool :=
  let n := nat_of_ascii c in ((48 <=? n) && (n <=? 57))%nat.

Definition digit_value (c : ascii) : nat := (nat_of_ascii c - 48)%nat.

(** read [width] decimal digits *)
Fixpoint read_digits (width acc : nat) (s : string) : option (nat * string) :=
  match width with
  | O => Some (acc, s)
  | S w =>
      match s with
      | String c s' =>
          if is_digit c then read_digits w (10 * acc + digit_value c)%nat s' else None
      | EmptyString => None
      end
  end.

Definition expect (c : ascii) (s : string) : option string :=
  match s with
  | String c' s' => if Ascii.eqb c c' then Some s' else None
  | EmptyString => None
  end.

Definition read_fraction (s : string) : option unit :=
  match s with
  | EmptyString => Some tt
  | String c s' =>
      if Ascii.eqb c "." then
        match read_digits 6 0 s' with
        | Some (_, EmptyString) => Some tt
        | _ => None
        end
      else None
  end.

Definition parse_iso8601 (s : string) : option datetime :=
  '(y, s) ← read_digits 4 0 s; s ← expect "-" s;
  '(mo, s) ← read_digits 2 0 s; s ← expect "-" s;
  '(d, s) ← read_digits 2 0 s; s ← expect "T" s;
  '(h, s) ← read_digits 2 0 s; s ← expect ":" s;
  '(mi, s) ← read_digits 2 0 s; s ← expect ":" s;
  '(sec, s) ← read_digits 2 0 s;
  _ ← read_fraction s;
  Some {| year := y; month := mo; day := d;
          hour := h; minute := mi; second := sec; microsecond := 0 |}.

(** a well-formed calendar date and time of day, to the second *)
Definition is_iso8601 (s : string) : bool :=
  match parse_iso8601 s with
  | Some d =>
      ((1 <=? month d) && (month d <=? 12) && (1 <=? day d) && (day d <=? 31)
       && (hour d <? 24) && (minute d <? 60) && (second d <? 60))%nat
  | None => false
  end.

End Datetime.
Import Datetime.

(** ** What the outside world answers *)

(** [client.chat.completions.create(...)] followed by
    [.choices[0].message.content]: an exception is raised on the way (the
    client cannot be built, the request fails, there is no choice), or a
    completion arrives whose content is a string or [None]. *)
Inductive completion : Type :=
| CompletionRaises (msg : string)
| CompletionContent (content : option string).

Definition chat_completion (o : completion) : M (option string) :=
  match o with
  | CompletionRaises msg => raise (APIError msg)
  | CompletionContent content => ret content
  end.

(** [client.calls.create(...)]: the request fails, or a call is created
    and its [sid] is known. *)
Inductive call_creation : Type :=
| CallRaises (msg : string)
| CallCreated (sid : string).

Definition calls_create (o : call_creation) : M string :=
  match o with
  | CallRaises msg => raise (TwilioException msg)
  | CallCreated sid => ret sid
  end.

(** ** TwiML *)

Inductive verb : Type :=
| Say (text : string)
| Play (url : string)
| Gather (action : string) (nested : list verb)
| Hangup
| Redirect (url : string).

Definition is_hangup (v : verb) : bool :=
  match v with Hangup => true | _ => false end.

(** The [shouldEnd] of the specification: the response hangs up. *)
Definition shouldEnd (response : list verb) : bool := existsb is_hangup response.

Record PhoneInterviewRequest : Type := {
  req_jd : string;
  req_resume : string;
  phone_number : string
}.

Definition USE_OPENAI_TTS : bool := false.

Definition apology : string :=
  "I apologize, I'm having some technical difficulties. Could you please repeat that?".

Definition closing_suffix : string :=
  " Thank you so much for your time today. We'll be in touch soon with next steps. Have a great day!".

Definition greeting_text : string :=
  "Hi! This is Alex from FirstRound AI. Thanks for taking my call! "
  +:+ "I've reviewed your resume and I'm excited to learn more about your experience. "
  +:+ "This will be a quick screening call. Let's get started.".

Definition first_question : string :=
  "First, could you please introduce yourself and tell me a bit about your background?".

(** the [except] value of [evaluate_interview] *)
Definition fallback_evaluation : json :=
  JObj [ ("technical_fit", JInt 5);
         ("experience_relevance", JInt 5);
         ("communication", JInt 5);
         ("problem_solving", JInt 5);
         ("culture_fit", JInt 5);
         ("overall_score", JInt 5);
         ("decision", JStr "PENDING");
         ("summary", JStr "Evaluation could not be completed automatically.");
         ("strengths", JArr []);
         ("areas_of_concern", JArr [JStr "Automatic evaluation failed"]) ].

(** ** The handlers *)

Section Handlers.

(** The environment and the libraries the module calls. *)
Variable WEBHOOK_BASE_URL : string.
Variable twilio_configured : bool.      (* all three TWILIO_* variables are set *)
Variable json_loads : string -> option json.   (* [None]: JSONDecodeError *)
Variable openai_tts : string -> string -> option string.

Definition generate_openai_tts (text filename : string) : option string :=
  if negb USE_OPENAI_TTS then None else openai_tts text filename.

(** the dict display [log_data = {...}] of [save_conversation_log] *)
Definition make_log_data (now : datetime) (call_sid : string)
    (c : context) (status : string) : log_data :=
  {| log_call_sid := call_sid;
     log_timestamp := isoformat now;
     log_status := status;
     log_job_description := PyStr.slice_to 500 (default "" (jd c));
     log_resume_summary := PyStr.slice_to 500 (default "" (resume c));
     log_conversation := default [] (conversation c);
     log_exchange_count := length (default [] (conversation c)) / 2;
     log_evaluation := default JNull (evaluation c) |}.

Definition save_conversation_log (now : datetime) (call_sid : string)
    (context : loc) (status : string) : M string :=
  c <- deref context;
  write_log (make_log_data now call_sid c status);;
  ret ("interview_" +:+ call_sid +:+ ".json").

(** the fence handling of [evaluate_interview], lines 138-143 *)
Definition extract_json (content : option string) : M string :=
  match content with
  | None => raise AttributeError
  | Some text =>
      let response_text := PyStr.strip text in
      if PyStr.contains "```json" response_text then
        a <- index (PyStr.split "```json" response_text) 1;
        b <- index (PyStr.split "```" a) 0;
        ret (PyStr.strip b)
      else if PyStr.contains "```" response_text then
        a <- index (PyStr.split "```" response_text) 1;
        b <- index (PyStr.split "```" a) 0;
        ret (PyStr.strip b)
      else ret response_text
  end.

Definition evaluate_interview (ev : completion) (call_sid : string)
    (context : loc) : M json :=
  note_eval_call call_sid;;
  try_except
    (_ <- deref context;
     content <- chat_completion ev;
     response_text <- extract_json content;
     match json_loads response_text with
     | Some evaluation => ret evaluation
     | None => raise JSONDecodeError
     end)
    (fun _ => ret fallback_evaluation).

(** [evaluation.get("decision")] *)
Definition json_get (v : json) (key : string) : M (option json) :=
  match v with
  | JObj fields => ret (assoc_get key fields)
  | _ => raise AttributeError
  end.

Definition is_accept (d : option json) : bool :=
  match d with
  | Some (JStr s) => String.eqb s "ACCEPT"
  | _ => false
  end.

Definition update_application_status (now : datetime) (call_sid : string)
    (evaluation : json) : M unit :=
  try_except
    (d <- json_get evaluation "decision";
     send_patch {| patch_call_sid := call_sid;
                   patch_status := if is_accept d then "accepted" else "rejected";
                   patch_evaluation := evaluation;
                   patch_interviewedAt := isoformat now |})
    (fun _ => ret tt).

(** line 266: [interview_contexts[new] = interview_contexts.pop(old)] *)
Definition rekey (old new : string) : M unit :=
  l <- registry_pop old;
  registry_set new l.

Definition start_phone_interview (twilio : call_creation)
    (request : PhoneInterviewRequest) : M (string * string) :=
  if negb twilio_configured
  then raise (HTTPException 500 "Twilio credentials not configured")
  else
    try_except
      (let temp_key := "pending_" +:+ phone_number request in
       l <- new_dict {| jd := Some (req_jd request);
                        resume := Some (req_resume request);
                        conversation := None;
                        evaluation := None |};
       registry_set temp_key l;;
       call_sid <- calls_create twilio;
       rekey temp_key call_sid;;
       ret (call_sid, "calling"))
      (fun e => raise (HTTPException 500 ("Failed to initiate call: " +:+ exn_str e))).

(** [interview_contexts.get(call_sid, default)]: the default dict is
    built before the lookup. *)
Definition registry_get_default (call_sid : string) (dflt : context) : M loc :=
  d <- new_dict dflt;
  o <- registry_get call_sid;
  ret (default d o).

Definition gather_action (call_sid : string) : string :=
  WEBHOOK_BASE_URL +:+ "/twilio/process-response/" +:+ call_sid.

Definition say_or_play (audio : option string) (text url : string) : verb :=
  match audio with
  | Some _ => Play url
  | None => Say text
  end.

Definition twilio_voice_webhook (call_sid : string) : M (list verb) :=
  _ <- registry_get_default call_sid
         {| jd := Some ""; resume := Some ""; conversation := None; evaluation := None |};
  let greeting_audio :=
    generate_openai_tts greeting_text ("greeting_" +:+ call_sid +:+ ".mp3") in
  let question_audio :=
    generate_openai_tts first_question ("q1_" +:+ call_sid +:+ ".mp3") in
  ret [ say_or_play greeting_audio greeting_text
          (WEBHOOK_BASE_URL +:+ "/audio/greeting_" +:+ call_sid +:+ ".mp3");
        Gather (gather_action call_sid)
          [ say_or_play question_audio first_question
              (WEBHOOK_BASE_URL +:+ "/audio/q1_" +:+ call_sid +:+ ".mp3") ];
        Say "I didn't catch that. Let me try again.";
        Redirect (WEBHOOK_BASE_URL +:+ "/twilio/voice-webhook") ].

Definition process_response (gen : completion) (now : datetime)
    (call_sid speech_result : string) : M (list verb) :=
  context <- registry_get_default call_sid
               {| jd := Some ""; resume := Some "";
                  conversation := Some []; evaluation := None |};
  c <- deref context;
  match conversation c with
  | Some _ => ret tt
  | None => update context (set_conversation [])
  end;;
  conversation_append context (Message user (Some speech_result));;
  ai_response <-
    try_except
      (content <- chat_completion gen;
       conversation_append context (Message assistant content);;
       registry_set call_sid context;;
       save_conversation_log now call_sid context "in_progress";;
       (* the logging line slices [ai_response[:100]] *)
       match content with
       | Some text => ret text
       | None => raise TypeError
       end)
      (fun _ => ret apology);
  c <- deref context;
  let exchange_num := length (default [] (conversation c)) / 2 in
  let audio_filename :=
    "response_" +:+ call_sid +:+ "_" +:+ pretty exchange_num +:+ ".mp3" in
  transcript <- get_conversation context;
  if (10 <=? length transcript)%nat then
    let closing_text := ai_response +:+ closing_suffix in
    let closing_audio :=
      generate_openai_tts closing_text ("closing_" +:+ call_sid +:+ ".mp3") in
    ret [ say_or_play closing_audio closing_text
            (WEBHOOK_BASE_URL +:+ "/audio/closing_" +:+ call_sid +:+ ".mp3");
          Hangup ]
  else
    let response_audio := generate_openai_tts ai_response audio_filename in
    ret [ Gather (gather_action call_sid)
            [ say_or_play response_audio ai_response
                (WEBHOOK_BASE_URL +:+ "/audio/" +:+ audio_filename) ];
          Say "Are you still there?";
          Redirect (gather_action call_sid) ].

Definition terminal_without_evaluation (call_status : string) : bool :=
  bool_decide (call_status ∈ ["failed"; "busy"; "no-answer"]).

Definition twilio_status_callback (ev : completion) (now_patch now_log : datetime)
    (call_sid call_status : string) : M string :=
  (if String.eqb call_status "completed" then
     o <- registry_get call_sid;
     match o with
     | Some context =>
         c <- deref context;
         (if (2 <=? length (default [] (conversation c)))%nat then
            evaluation <- evaluate_interview ev call_sid context;
            update context (set_evaluation evaluation);;
            update_application_status now_patch call_sid evaluation
          else ret tt);;
         save_conversation_log now_log call_sid context call_status;;
         registry_del call_sid
     | None => ret tt
     end
   else if terminal_without_evaluation call_status then
     o <- registry_get call_sid;
     match o with
     | Some context =>
         save_conversation_log now_log call_sid context call_status;;
         registry_del call_sid
     | None => ret tt
     end
   else ret tt);;
  ret "ok".

(** *** Auxiliary definitions for the statements *)

(** the default dict of [process_response] *)
Definition default_context : context :=
  {| jd := Some ""; resume := Some ""; conversation := Some []; evaluation := None |}.

(** the object [process_response] works on: the registered one, or the
    default dict it has just built *)
Definition turn_loc (s : state) (call_sid : string) : loc :=
  default (length (heap s)) (interview_contexts s !! call_sid).

Definition turn_context (s : state) (call_sid : string) : option context :=
  (heap s ++ [default_context]) !! turn_loc s call_sid.

(** the TwiML of lines 404-443, speech synthesis being switched off *)
Definition turn_response (call_sid ai_response : string) (n : nat) : list verb :=
  if (10 <=? n)%nat then
    [ Say (ai_response +:+ closing_suffix); Hangup ]
  else
    [ Gather (gather_action call_sid) [ Say ai_response ];
      Say "Are you still there?";
      Redirect (gather_action call_sid) ].

(** what [extract_json] hands to the parser *)
Definition fenced_payload (text : string) : string :=
  let response_text := PyStr.strip text in
  if PyStr.contains "```json" response_text then
    PyStr.strip (nth 0 (PyStr.split "```" (nth 1 (PyStr.split "```json" response_text) "")) "")
  else if PyStr.contains "```" response_text then
    PyStr.strip (nth 0 (PyStr.split "```" (nth 1 (PyStr.split "```" response_text) "")) "")
  else response_text.

(** the value [evaluate_interview] returns *)
Definition evaluation_value (ev : completion) : json :=
  match ev with
  | CompletionContent (Some text) =>
      default fallback_evaluation (json_loads (fenced_payload text))
  | _ => fallback_evaluation
  end.

(** the PATCH requests [update_application_status] issues *)
Definition status_patches (now : datetime) (call_sid : string) (v : json) : list patch :=
  match v with
  | JObj fields =>
      [ {| patch_call_sid := call_sid;
           patch_status := if is_accept (assoc_get "decision" fields)
                           then "accepted" else "rejected";
           patch_evaluation := v;
           patch_interviewedAt := isoformat now |} ]
  | _ => []
  end.

Definition new_context (request : PhoneInterviewRequest) : context :=
  {| jd := Some (req_jd request); resume := Some (req_resume request);
     conversation := None; evaluation := None |}.

Definition temp_key (request : PhoneInterviewRequest) : string :=
  "pending_" +:+ phone_number request.

(** *** The service as a transition system *)

(** one request served, whatever the outside world answers; the routes
    left out ([/start-interview], [/audio], [/logs]) write neither the
    registry nor the log *)
Inductive step : state → state → Prop :=
| step_start_phone_interview twilio request s :
    step s (start_phone_interview twilio request s).2
| step_voice_webhook call_sid s :
    step s (twilio_voice_webhook call_sid s).2
| step_process_response gen now call_sid speech s :
    step s (process_response gen now call_sid speech s).2
| step_status_callback ev now_patch now_log call_sid call_status s :
    step s (twilio_status_callback ev now_patch now_log call_sid call_status s).2.

Definition reachable (s : state) : Prop := rtc step init s.

(** successive calls of [process_response] for one call *)
Fixpoint turns (inputs : list (completion * datetime * string))
    (call_sid : string) (s : state) : state :=
  match inputs with
  | [] => s
  | (gen, now, speech) :: rest =>
      turns rest call_sid (process_response gen now call_sid speech s).2
  end.

(** the evaluation client failed or its output does not parse *)
Definition evaluation_failed (ev : completion) : bool :=
  match ev with
  | CompletionRaises _ => true
  | CompletionContent None => true
  | CompletionContent (Some text) =>
      match json_loads (fenced_payload text) with
      | Some _ => false
      | None => true
      end
  end.

End Handlers.

(** the statuses that finalise a session *)
Definition terminal (call_status : string) : bool :=
  String.eqb call_status "completed" || terminal_without_evaluation call_status.

(** whether a response hangs up, for a handler's result *)
Definition ends_call (r : result (list verb)) : bool :=
  match r with
  | Ok response => shouldEnd response
  | Raise _ => false
  end.

Definition other (r : role) : role :=
  match r with user => assistant | assistant => user end.

Definition role_eqb (a b : role) : bool :=
  match a, b with
  | user, user | assistant, assistant => true
  | _, _ => false
  end.

(** the roles alternate strictly, beginning with [first] *)
Fixpoint alternates (first : role) (t : list message) : bool :=
  match t with
  | [] => true
  | m :: t' => role_eqb (msg_role m) first && alternates (other first) t'
  end.

(** the entries a returned turn adds *)
Definition exchange (speech : string) (content : option string) : list message :=
  [Message user (Some speech); Message assistant content].

(** the input of a turn whose completion arrives with [content] *)
Definition returned (x : option string * datetime * string)
    : completion * datetime * string :=
  (CompletionContent x.1.1, x.1.2, x.2).

(** the registry invariant: every key refers to an object that carries no
    evaluation, and no object is shared by two keys *)
Definition inv (s : state) : Prop :=
  (∀ k l, interview_contexts s !! k = Some l →
          ∃ c, heap s !! l = Some c ∧ evaluation c = None)
  ∧ (∀ k1 k2 l, interview_contexts s !! k1 = Some l →
                interview_contexts s !! k2 = Some l → k1 = k2).

(** *** The decision policy of the specification *)

Definition score_keys : list string :=
  ["technical_fit"; "experience_relevance"; "communication";
   "problem_solving"; "culture_fit"].

Definition json_int (v : option json) : option Z :=
  match v with
  | Some (JInt n) => Some n
  | _ => None
  end.

(** the five sub-scores of an evaluation *)
Definition sub_scores (v : json) : option (list Z) :=
  match v with
  | JObj fields => mapM (λ k, json_int (assoc_get k fields)) score_keys
  | _ => None
  end.

(** the [decision] entry of an evaluation *)
Definition reported_decision (v : json) : option json :=
  match v with
  | JObj fields => assoc_get "decision" fields
  | _ => None
  end.



(** ** Observing a state *)

(** the session a key refers to, [interview_contexts.get(call_sid)] read
    through to the object *)
Definition session (s : state) (call_sid : string) : option context :=
  l ← interview_contexts s !! call_sid; heap s !! l.

(** the transcript of a call; no session or no list yet reads as empty *)
Definition transcript (s : state) (call_sid : string) : list message :=
  default [] (c ← session s call_sid; conversation c).

(** every reference held by the registry points to an object *)
Definition wf (s : state) : Prop :=
  ∀ k l, interview_contexts s !! k = Some l → l < length (heap s).

(** ** Further observations on the handlers *)

(** the entries a call of [process_response] adds to a registered
    session: the candidate's, and the interviewer's when the completion
    arrives *)
Definition entries_added (gen : completion) : nat :=
  match gen with
  | CompletionContent _ => 2
  | CompletionRaises _ => 1
  end.

(** the verb, or one nested in it, plays an audio file *)
Fixpoint plays_audio (v : verb) : bool :=
  match v with
  | Play _ => true
  | Gather _ nested => existsb plays_audio nested
  | _ => false
  end.

(** ** The log routes [/logs] and [/logs/{call_sid}]

    The directory [LOGS_DIR] is read off the writes: it starts empty and
    [open(log_file, "w")] replaces the file of the call.  What [json.dump]
    wrote is what [json.load] reads. *)

(** [f"interview_{call_sid}.json"] *)
Definition log_file_name (call_sid : string) : string :=
  "interview_" +:+ call_sid +:+ ".json".

Definition logs_dir (writes : list log_data) : gmap string log_data :=
  foldl (λ dir r, <[log_file_name (log_call_sid r) := r]> dir) ∅ writes.

Definition get_log (call_sid : string) : M log_data :=
  fun s => match logs_dir (log_writes s) !! log_file_name call_sid with
           | Some r => (Ok r, s)
           | None => (Raise (HTTPException 404 "Log not found"), s)
           end.

(** an entry of the list [list_logs] returns *)
Record log_summary : Type := LogSummary {
  sum_call_sid : string;
  sum_timestamp : string;
  sum_status : string;
  sum_exchange_count : nat
}.

Definition summarize (r : log_data) : log_summary :=
  {| sum_call_sid := log_call_sid r;
     sum_timestamp := log_timestamp r;
     sum_status := log_status r;
     sum_exchange_count := log_exchange_count r |}.

(** [sorted(logs, key=lambda x: x.get("timestamp", ""), reverse=True)]: a
    stable sort on the timestamps, the greatest first, strings being
    compared character by character *)
Fixpoint insert_by_timestamp (x : log_summary) (l : list log_summary)
    : list log_summary :=
  match l with
  | [] => [x]
  | y :: ys =>
      if String.ltb (sum_timestamp x) (sum_timestamp y)
      then y :: insert_by_timestamp x ys
      else x :: y :: ys
  end.

Definition sorted_newest_first (l : list log_summary) : list log_summary :=
  foldr insert_by_timestamp [] l.

(** the files are read in the order the directory lists them, here the
    order of [map_to_list] *)
Definition list_logs : M (list log_summary) :=
  fun s => (Ok (sorted_newest_first
                  (summarize <$> (map_to_list (logs_dir (log_writes s))).*2)), s).

(** [a] carries a timestamp that is not before the one of [b] *)
Definition not_older (a b : log_summary) : Prop :=
  String.le (sum_timestamp b) (sum_timestamp a).

(** *** The order of timestamps *)

(** the first comparison decides, unless it finds equality *)
Definition lex (c1 c2 : comparison) : comparison :=
  match c1 with
  | Eq => c2
  | _ => c1
  end.

(** the order of two naive [datetime] values: field by field, the year
    first *)
Definition datetime_compare (a b : datetime) : comparison :=
  lex (year a ?= year b)
    (lex (month a ?= month b)
       (lex (day a ?= day b)
          (lex (hour a ?= hour b)
             (lex (minute a ?= minute b)
                (lex (second a ?= second b)
                   (microsecond a ?= microsecond b)))))).

(** ** [start_interview]: the interview in a Daily room *)

Record InterviewRequest : Type := {
  web_jd : string;
  web_resume : string
}.

(** what a request to the Daily API comes to: the client raises, or a
    response arrives with its status, its text and, when the body is
    JSON, the value of [resp.json()] *)
Inductive http_reply : Type :=
| HttpRaises (msg : string)
| HttpReplies (status : nat) (text : string) (body : option json).

(** what [start_interview] does to the outside world *)
Inductive daily_action : Type :=
| PostRooms
| PostMeetingTokens (room_name : json)
| Popen (cmd : list string).

(** how the request ends: the answer [{"room_url": ...}], the
    [HTTPException] of status 500 the handler raises itself, or any other
    exception, which the handler lets through *)
Inductive web_outcome : Type :=
| Started (room_url : string)
| Refused (detail : string)
| Crashed.

(** [v[key]] on what [resp.json()] gave; [None] stands for the [KeyError]
    or [TypeError] *)
Definition json_item (v : option json) (key : string) : option json :=
  match v with
  | Some (JObj fields) => assoc_get key fields
  | _ => None
  end.

Definition bot_command (room_url bot_token : string) (request : InterviewRequest)
    : list string :=
  [ "python"; "bot_runner.py"; "-u"; room_url; "-t"; bot_token;
    "--jd"; web_jd request; "--resume"; web_resume request ].

(** [DAILY_API_KEY] is the environment variable, [rooms] and [tokens] are
    the replies to the two requests, [popen_ok] tells whether
    [subprocess.Popen] starts the process.  The second component lists
    what was done, in order. *)
Definition start_interview (DAILY_API_KEY : option string)
    (rooms tokens : http_reply) (popen_ok : bool) (request : InterviewRequest)
    : web_outcome * list daily_action :=
  match DAILY_API_KEY with
  | None | Some EmptyString => (Refused "DAILY_API_KEY not configured", [])
  | Some _ =>
      match rooms with
      | HttpRaises _ => (Crashed, [PostRooms])
      | HttpReplies status text room_data =>
          if negb (status =? 200)
          then (Refused ("Failed to create room: " +:+ text), [PostRooms])
          else
            match json_item room_data "url", json_item room_data "name" with
            | Some room_url, Some room_name =>
                let sent := [PostRooms; PostMeetingTokens room_name] in
                match tokens with
                | HttpRaises _ => (Crashed, sent)
                | HttpReplies status text token_data =>
                    if negb (status =? 200)
                    then (Refused ("Failed to create token: " +:+ text), sent)
                    else
                      match room_url, json_item token_data "token" with
                      | JStr url, Some (JStr bot_token) =>
                          if popen_ok
                          then (Started url,
                                sent ++ [Popen (bot_command url bot_token request)])
                          else (Crashed, sent)
                      | _, _ => (Crashed, sent)
                      end
                end
            | _, _ => (Crashed, [PostRooms])
            end
      end
  end.

(** ** Samples used to exercise the model *)

Definition sample_url : string := "http://localhost:7860".

Definition sample_tts (text filename : string) : option string := None.

Definition sample_request : PhoneInterviewRequest :=
  {| req_jd := "Backend Engineer JD"; req_resume := "5 yrs Python resume";
     phone_number := "+15551234567" |}.

(** an answer of the evaluation client whose decision contradicts its scores *)
Definition sample_evaluation : json :=
  JObj [ ("technical_fit", JInt 9);
         ("experience_relevance", JInt 9);
         ("communication", JInt 9);
         ("problem_solving", JInt 9);
         ("culture_fit", JInt 9);
         ("overall_score", JInt 9);
         ("decision", JStr "REJECT");
         ("summary", JStr "Strong candidate.");
         ("strengths", JArr [JStr "APIs"]);
         ("areas_of_concern", JArr []) ].

Definition sample_evaluation_text : string :=
  "{'technical_fit': 9, 'experience_relevance': 9, 'communication': 9, "
  +:+ "'problem_solving': 9, 'culture_fit': 9, 'overall_score': 9, "
  +:+ "'decision': 'REJECT', 'summary': 'Strong candidate.', "
  +:+ "'strengths': ['APIs'], 'areas_of_concern': []}".

(** the same answer inside a markdown fence, as the model tends to send it *)
Definition sample_completion_text : string :=
  "```json" +:+ String (ascii_of_nat 10) sample_evaluation_text
  +:+ String (ascii_of_nat 10) "```".

(** [json.loads] on the one text the samples use (its apostrophes stand for
    double quotes), and a decode error elsewhere *)
Definition sample_loads (text : string) : option json :=
  if String.eqb text sample_evaluation_text then Some sample_evaluation else None.

(** a registered session that has had no turn *)
Definition sample_session : state :=
  {| heap := [ {| jd := Some "Backend Engineer JD"; resume := Some "5 yrs Python resume";
                  conversation := None; evaluation := None |} ];
     interview_contexts := {[ "CA1" := 0%nat ]};
     log_writes := []; eval_calls := []; patches := [] |}.

(** a registry in which both the provisional key and the call identifier
    are taken *)
Definition sample_collision : state :=
  {| heap := [ {| jd := Some "old"; resume := Some "old";
                  conversation := Some []; evaluation := None |};
               {| jd := Some "new"; resume := Some "new";
                  conversation := None; evaluation := None |} ];
     interview_contexts := {[ "CA1" := 0%nat; "pending_+15551234567" := 1%nat ]};
     log_writes := []; eval_calls := []; patches := [] |}.

Definition sample_now : datetime :=
  {| year := 2026; month := 11; day := 3;
     hour := 9; minute := 5; second := 0; microsecond := 12 |}.

(** a second call started while the first is registered *)
Definition sample_two_calls : state :=
  (start_phone_interview true (CallCreated "CA2") sample_request sample_session).2.

(** the first call after one exchange *)
Definition sample_one_exchange : state :=
  (process_response sample_url sample_tts (CompletionContent (Some "Tell me more."))
     sample_now "CA1" "I have 5 years building APIs" sample_session).2.

Definition sample_later : datetime :=
  {| year := 2026; month := 11; day := 3;
     hour := 9; minute := 6; second := 30; microsecond := 0 |}.

Definition sample_web_request : InterviewRequest :=
  {| web_jd := "Backend Engineer JD"; web_resume := "5 yrs Python resume" |}.

Definition sample_room_reply : http_reply :=
  HttpReplies 200 ""
    (Some (JObj [ ("url", JStr "https://firstround.daily.co/room1");
                  ("name", JStr "room1") ])).

Definition sample_token_reply : http_reply :=
  HttpReplies 200 "" (Some (JObj [ ("token", JStr "tok1") ])).

(** an answer inside a fence that names no language *)
Definition sample_plain_fence_text : string :=
  "```" +:+ String (ascii_of_nat 10) sample_evaluation_text
  +:+ String (ascii_of_nat 10) "```".

(** the first call after one exchange, a second call being started then *)
Definition sample_one_exchange_then_second : state :=
  (start_phone_interview true (CallCreated "CA2") sample_request sample_one_exchange).2.

(** ** Running the monad *)

Section Run.
Context {A B : Type}.
Implicit Types (k : A → M B) (s : state).

Lemma bind_ret (a : A) k s : bind (ret a) k s = k a s.
Proof. reflexivity. Qed.

Lemma bind_raise e k s : bind (raise e) k s = (Raise e, s).
Proof. reflexivity. Qed.

Lemma bind_assoc {C} (m : M C) (f : C → M A) k s :
  bind (bind m f) k s = bind m (λ x, bind (f x) k) s.
Proof. unfold bind. by destruct (m s) as [[?|?] ?]. Qed.

Lemma bind_run_ok (m : M A) k s a s' : m s = (Ok a, s') → bind m k s = k a s'.
Proof. unfold bind. by intros ->. Qed.

Lemma bind_run_raise (m : M A) k s e s' :
  m s = (Raise e, s') → bind m k s = (Raise e, s').
Proof. unfold bind. by intros ->. Qed.

Lemma try_except_ok (m : M A) h s a s' :
  m s = (Ok a, s') → try_except m h s = (Ok a, s').
Proof. unfold try_except. by intros ->. Qed.

Lemma try_except_raise (m : M A) h s e s' :
  m s = (Raise e, s') → try_except m h s = h e s'.
Proof. unfold try_except. by intros ->. Qed.
End Run.

Lemma alter_lookup_insert (f : context → context) (h : list context) l c :
  h !! l = Some c → alter f l h = <[l := f c]> h.
Proof.
  intros Hl. apply list_eq. intros i.
  destruct (decide (i = l)) as [->|Hne].
  - rewrite list_lookup_alter_eq, Hl, list_lookup_insert_eq; [done|].
    by eapply lookup_lt_Some.
  - by rewrite list_lookup_alter_ne, list_lookup_insert_ne.
Qed.

Lemma deref_run l c s : heap s !! l = Some c → deref l s = (Ok c, s).
Proof. unfold deref. by intros ->. Qed.

Lemma update_run l f c s :
  heap s !! l = Some c → update l f s = (Ok tt, set_heap (<[l := f c]> (heap s)) s).
Proof. intros Hl. unfold update. by erewrite alter_lookup_insert. Qed.

Lemma get_conversation_run l c t s :
  heap s !! l = Some c → conversation c = Some t →
  get_conversation l s = (Ok t, s).
Proof.
  intros Hl Hc. unfold get_conversation.
  erewrite bind_run_ok by by apply deref_run. by rewrite Hc.
Qed.

Lemma conversation_append_run l m c t s :
  heap s !! l = Some c → conversation c = Some t →
  conversation_append l m s
  = (Ok tt, set_heap (<[l := set_conversation (t ++ [m]) c]> (heap s)) s).
Proof.
  intros Hl Hc. unfold conversation_append.
  erewrite bind_run_ok by by eapply get_conversation_run.
  by apply update_run.
Qed.

(** ** Properties of the handlers *)

Section Properties.
Variable WEBHOOK_BASE_URL : string.
Variable twilio_configured : bool.
Variable json_loads : string -> option json.
Variable openai_tts : string -> string -> option string.

Lemma wf_turn_context s call_sid : wf s → is_Some (turn_context s call_sid).
Proof.
  intros Hwf. unfold turn_context, turn_loc.
  destruct (interview_contexts s !! call_sid) as [l|] eqn:Hl; simpl.
  - apply lookup_lt_is_Some. rewrite length_app. apply Hwf in Hl. lia.
  - rewrite list_lookup_middle by done. by eexists.
Qed.

(** lines 341-348: the lookup, the initialisation of the list and the
    candidate's entry *)
Lemma process_response_prefix {X} (k : loc → M X) call_sid speech s c :
  turn_context s call_sid = Some c →
  let l := turn_loc s call_sid in
  let u := Message user (Some speech) in
  bind (registry_get_default call_sid default_context)
    (λ context, bind (deref context) (λ c,
       bind (match conversation c with
             | Some _ => ret tt
             | None => update context (set_conversation [])
             end)
         (λ _, bind (conversation_append context u) (λ _, k context)))) s
  = k l (set_heap (<[l := set_conversation (default [] (conversation c) ++ [u]) c]>
                      (heap s ++ [default_context])) s).
Proof.
  intros Hc l u. unfold turn_context in Hc. fold l in Hc.
  assert (Hlt : l < length (heap s ++ [default_context])) by by eapply lookup_lt_Some.
  unfold registry_get_default.
  rewrite bind_assoc. unfold new_dict at 1. unfold bind at 1.
  rewrite bind_assoc. unfold registry_get at 1. unfold bind at 1.
  rewrite bind_ret. cbn [interview_contexts set_heap heap].
  change (default (length (heap s)) (interview_contexts s !! call_sid)) with l.
  erewrite bind_run_ok by by apply deref_run.
  destruct (conversation c) as [t1|] eqn:Hconv.
  - rewrite bind_ret.
    by erewrite bind_run_ok by by eapply conversation_append_run.
  - erewrite bind_run_ok by by eapply update_run.
    erewrite bind_run_ok; cycle 1.
    { eapply conversation_append_run;
        [cbn [heap set_heap]; by apply list_lookup_insert_eq | reflexivity]. }
    cbn [heap set_heap]. by rewrite list_insert_insert_eq.
Qed.

(** lines 404-443 *)
Lemma process_response_suffix call_sid ai_response l c t s :
  heap s !! l = Some c → conversation c = Some t →
  bind (deref l) (λ c,
    let exchange_num := length (default [] (conversation c)) / 2 in
    let audio_filename :=
      "response_" +:+ call_sid +:+ "_" +:+ pretty exchange_num +:+ ".mp3" in
    bind (get_conversation l) (λ transcript,
      if (10 <=? length transcript)%nat then
        let closing_text := ai_response +:+ closing_suffix in
        let closing_audio :=
          generate_openai_tts openai_tts closing_text
            ("closing_" +:+ call_sid +:+ ".mp3") in
        ret [ say_or_play closing_audio closing_text
                (WEBHOOK_BASE_URL +:+ "/audio/closing_" +:+ call_sid +:+ ".mp3");
              Hangup ]
      else
        let response_audio := generate_openai_tts openai_tts ai_response audio_filename in
        ret [ Gather (gather_action WEBHOOK_BASE_URL call_sid)
                [ say_or_play response_audio ai_response
                    (WEBHOOK_BASE_URL +:+ "/audio/" +:+ audio_filename) ];
              Say "Are you still there?";
              Redirect (gather_action WEBHOOK_BASE_URL call_sid) ])) s
  = (Ok (turn_response WEBHOOK_BASE_URL call_sid ai_response (length t)), s).
Proof.
  intros Hl Hc.
  erewrite bind_run_ok by by apply deref_run.
  cbv zeta.
  erewrite bind_run_ok by by eapply get_conversation_run.
  unfold turn_response. by destruct (10 <=? length t)%nat.
Qed.

(** A turn whose completion arrived. *)
Lemma process_response_returned content now call_sid speech s c :
  turn_context s call_sid = Some c →
  let l := turn_loc s call_sid in
  let t := (default [] (conversation c) ++ [Message user (Some speech)])
           ++ [Message assistant content] in
  let c' := set_conversation t c in
  process_response WEBHOOK_BASE_URL openai_tts (CompletionContent content)
    now call_sid speech s
  = (Ok (turn_response WEBHOOK_BASE_URL call_sid (default apology content) (length t)),
     {| heap := <[l := c']> (heap s ++ [default_context]);
        interview_contexts := <[call_sid := l]> (interview_contexts s);
        log_writes := log_writes s ++ [make_log_data now call_sid c' "in_progress"];
        eval_calls := eval_calls s;
        patches := patches s |}).
Proof.
  intros Hc l t c'. unfold process_response. fold default_context.
  refine (eq_trans (process_response_prefix _ _ _ _ _ Hc) _). fold l.
  assert (Hlt : l < length (heap s ++ [default_context]))
    by by eapply lookup_lt_Some.
  set (u := Message user (Some speech)) in *.
  set (t0 := default [] (conversation c)) in *.
  set (s1 := set_heap _ s).
  assert (H1 : heap s1 !! l = Some (set_conversation (t0 ++ [u]) c))
    by by apply list_lookup_insert_eq.
  set (s2 := {| heap := <[l := c']> (heap s ++ [default_context]);
                interview_contexts := <[call_sid := l]> (interview_contexts s);
                log_writes := log_writes s ++ [make_log_data now call_sid c' "in_progress"];
                eval_calls := eval_calls s; patches := patches s |}).
  assert (H2 : heap s2 !! l = Some c') by by apply list_lookup_insert_eq.
  assert (Hbody : ∀ (tail : option string → M string),
    bind (chat_completion (CompletionContent content)) (λ content,
      bind (conversation_append l (Message assistant content)) (λ _,
        bind (registry_set call_sid l) (λ _,
          bind (save_conversation_log now call_sid l "in_progress") (λ _,
            tail content)))) s1
    = tail content s2).
  { intros tail. unfold chat_completion. rewrite bind_ret.
    erewrite bind_run_ok by by eapply conversation_append_run.
    unfold registry_set at 1. unfold bind at 1.
    unfold save_conversation_log. rewrite bind_assoc.
    erewrite bind_run_ok; cycle 1.
    { apply deref_run. cbn [heap set_heap set_interview_contexts s1].
      rewrite list_insert_insert_eq. by apply list_lookup_insert_eq. }
    rewrite bind_assoc. unfold write_log at 1. unfold bind at 1. rewrite bind_ret.
    f_equal. unfold s2, s1, set_log_writes, set_interview_contexts, set_heap.
    cbn. by rewrite list_insert_insert_eq. }
  assert (Htry :
    try_except
      (bind (chat_completion (CompletionContent content)) (λ content,
         bind (conversation_append l (Message assistant content)) (λ _,
           bind (registry_set call_sid l) (λ _,
             bind (save_conversation_log now call_sid l "in_progress") (λ _,
               match content with
               | Some text => ret text
               | None => raise TypeError
               end)))))
      (λ _, ret apology) s1 = (Ok (default apology content), s2)).
  { destruct content as [text|].
    - apply try_except_ok. exact (Hbody _).
    - erewrite try_except_raise; [reflexivity|]. exact (Hbody _). }
  erewrite bind_run_ok by exact Htry.
  by erewrite process_response_suffix.
Qed.

(** A turn whose completion request failed. *)
Lemma process_response_raised msg now call_sid speech s c :
  turn_context s call_sid = Some c →
  let l := turn_loc s call_sid in
  let t := default [] (conversation c) ++ [Message user (Some speech)] in
  process_response WEBHOOK_BASE_URL openai_tts (CompletionRaises msg)
    now call_sid speech s
  = (Ok (turn_response WEBHOOK_BASE_URL call_sid apology (length t)),
     set_heap (<[l := set_conversation t c]> (heap s ++ [default_context])) s).
Proof.
  intros Hc l t. unfold process_response. fold default_context.
  refine (eq_trans (process_response_prefix _ _ _ _ _ Hc) _). fold l.
  assert (Hlt : l < length (heap s ++ [default_context]))
    by by eapply lookup_lt_Some.
  erewrite bind_run_ok; cycle 1.
  { erewrite try_except_raise; [reflexivity|]. reflexivity. }
  apply process_response_suffix with (c := set_conversation t c); [|done].
  by apply list_lookup_insert_eq.
Qed.

(** *** [evaluate_interview] *)

Lemma split_go_cons sep skip cur s :
  ∃ a rest, PyStr.split_go sep skip cur s = a :: rest.
Proof.
  revert skip cur. induction s as [|ch s IH]; intros skip cur; simpl.
  - by eexists _, _.
  - destruct skip; [|apply IH].
    destruct (PyStr.startswith sep (String ch s)); [by eexists _, _ | apply IH].
Qed.

Lemma split_contains sep s :
  sep ≠ EmptyString → PyStr.contains sep s = true →
  ∃ a b rest, PyStr.split sep s = a :: b :: rest.
Proof.
  intros Hsep. unfold PyStr.split. generalize EmptyString as cur.
  induction s as [|ch s IH]; intros cur Hin.
  - destruct sep; [done | discriminate].
  - cbn [PyStr.contains] in Hin. cbn [PyStr.split_go].
    destruct (PyStr.startswith sep (String ch s)).
    + destruct (split_go_cons sep (String.length sep - 1) EmptyString s) as (b & rest & ->).
      by eexists _, _, _.
    + by apply IH.
Qed.

Lemma split_first sep s : ∃ a rest, PyStr.split sep s = a :: rest.
Proof. apply split_go_cons. Qed.

Lemma extract_json_run text s :
  extract_json (Some text) s = (Ok (fenced_payload text), s).
Proof.
  unfold extract_json, fenced_payload. cbv zeta.
  destruct (PyStr.contains "```json" (PyStr.strip text)) eqn:Hjson.
  - apply split_contains in Hjson as (a & b & rest & ->); [|done].
    cbn [index lookup list_lookup nth]. rewrite bind_ret.
    destruct (split_first "```" b) as (x & rest' & ->). done.
  - destruct (PyStr.contains "```" (PyStr.strip text)) eqn:Hfence; [|done].
    apply split_contains in Hfence as (a & b & rest & ->); [|done].
    cbn [index lookup list_lookup nth]. rewrite bind_ret.
    destruct (split_first "```" b) as (x & rest' & ->). done.
Qed.

Lemma evaluate_interview_run ev call_sid l c s :
  heap s !! l = Some c →
  evaluate_interview json_loads ev call_sid l s
  = (Ok (evaluation_value json_loads ev), set_eval_calls (eval_calls s ++ [call_sid]) s).
Proof.
  intros Hl. unfold evaluate_interview, note_eval_call. unfold bind at 1.
  set (s1 := set_eval_calls _ s).
  assert (H1 : heap s1 !! l = Some c) by done.
  destruct ev as [msg|[text|]]; cbn [evaluation_value].
  - erewrite try_except_raise; [reflexivity|].
    by erewrite bind_run_ok by by apply deref_run.
  - destruct (json_loads (fenced_payload text)) as [v|] eqn:Hparse; cbn [default from_option].
    + apply try_except_ok.
      erewrite bind_run_ok by by apply deref_run.
      unfold chat_completion. rewrite bind_ret.
      erewrite bind_run_ok by apply extract_json_run.
      by rewrite Hparse.
    + erewrite try_except_raise; [reflexivity|].
      erewrite bind_run_ok by by apply deref_run.
      unfold chat_completion. rewrite bind_ret.
      erewrite bind_run_ok by apply extract_json_run.
      by rewrite Hparse.
  - erewrite try_except_raise; [reflexivity|].
    by erewrite bind_run_ok by by apply deref_run.
Qed.

(** [evaluate_interview] returns a value from every state *)
Lemma evaluate_interview_total ev call_sid l s :
  ∃ v, evaluate_interview json_loads ev call_sid l s
       = (Ok v, set_eval_calls (eval_calls s ++ [call_sid]) s).
Proof.
  destruct (heap s !! l) as [c|] eqn:Hl.
  - eexists. by eapply evaluate_interview_run.
  - exists fallback_evaluation.
    unfold evaluate_interview, note_eval_call. unfold bind at 1.
    erewrite try_except_raise; [reflexivity|].
    unfold bind, deref. cbn [heap set_eval_calls]. by rewrite Hl.
Qed.

(** *** [update_application_status] *)

Lemma update_application_status_run now call_sid v s :
  update_application_status now call_sid v s
  = (Ok tt, set_patches (patches s ++ status_patches now call_sid v) s).
Proof.
  unfold update_application_status, set_patches.
  destruct v; cbn; rewrite ?app_nil_r; by destruct s.
Qed.

(** *** [twilio_status_callback] *)

Lemma save_conversation_log_run now call_sid l status c s :
  heap s !! l = Some c →
  save_conversation_log now call_sid l status s
  = (Ok ("interview_" +:+ call_sid +:+ ".json"),
     set_log_writes (log_writes s ++ [make_log_data now call_sid c status]) s).
Proof.
  intros Hl. unfold save_conversation_log.
  by erewrite bind_run_ok by by apply deref_run.
Qed.

Lemma registry_del_run call_sid l s :
  interview_contexts s !! call_sid = Some l →
  registry_del call_sid s
  = (Ok tt, set_interview_contexts (delete call_sid (interview_contexts s)) s).
Proof. intros Hl. unfold registry_del, registry_pop, bind. by rewrite Hl. Qed.

(** the last two statements of a finalisation: the log and the removal *)
Lemma finalize_run now call_sid l status c s :
  interview_contexts s !! call_sid = Some l → heap s !! l = Some c →
  bind (save_conversation_log now call_sid l status) (λ _, registry_del call_sid) s
  = (Ok tt,
     set_interview_contexts (delete call_sid (interview_contexts s))
       (set_log_writes (log_writes s ++ [make_log_data now call_sid c status]) s)).
Proof.
  intros Hr Hl.
  erewrite bind_run_ok by by apply save_conversation_log_run.
  by erewrite registry_del_run.
Qed.

(** a completed call with at least one exchange *)
Lemma status_completed_evaluated ev now_patch now_log call_sid l c s :
  interview_contexts s !! call_sid = Some l → heap s !! l = Some c →
  (2 ≤ length (default [] (conversation c)))%nat →
  let v := evaluation_value json_loads ev in
  let c' := set_evaluation v c in
  twilio_status_callback json_loads ev now_patch now_log call_sid "completed" s
  = (Ok "ok",
     {| heap := <[l := c']> (heap s);
        interview_contexts := delete call_sid (interview_contexts s);
        log_writes := log_writes s ++ [make_log_data now_log call_sid c' "completed"];
        eval_calls := eval_calls s ++ [call_sid];
        patches := patches s ++ status_patches now_patch call_sid v |}).
Proof.
  intros Hr Hl Hlen v c'. unfold twilio_status_callback.
  cbn [String.eqb Ascii.eqb Bool.eqb]. cbv iota.
  rewrite bind_assoc. unfold registry_get at 1. unfold bind at 1. rewrite Hr.
  rewrite !bind_assoc.
  erewrite bind_run_ok by by apply deref_run.
  apply Nat.leb_le in Hlen. rewrite Hlen.
  rewrite !bind_assoc.
  erewrite bind_run_ok by by eapply evaluate_interview_run.
  rewrite bind_assoc.
  erewrite bind_run_ok by by apply update_run.
  erewrite bind_run_ok by apply update_application_status_run.
  erewrite bind_run_ok; cycle 1.
  { apply finalize_run; [done|].
    cbn [heap set_patches set_heap set_eval_calls].
    apply list_lookup_insert_eq. by eapply lookup_lt_Some. }
  done.
Qed.

(** a completed call without a full exchange *)
Lemma status_completed_short ev now_patch now_log call_sid l c s :
  interview_contexts s !! call_sid = Some l → heap s !! l = Some c →
  (length (default [] (conversation c)) < 2)%nat →
  twilio_status_callback json_loads ev now_patch now_log call_sid "completed" s
  = (Ok "ok",
     set_interview_contexts (delete call_sid (interview_contexts s))
       (set_log_writes (log_writes s ++ [make_log_data now_log call_sid c "completed"]) s)).
Proof.
  intros Hr Hl Hlen. unfold twilio_status_callback.
  cbn [String.eqb Ascii.eqb Bool.eqb]. cbv iota.
  rewrite bind_assoc. unfold registry_get at 1. unfold bind at 1. rewrite Hr.
  rewrite !bind_assoc.
  erewrite bind_run_ok by by apply deref_run.
  apply Nat.leb_gt in Hlen. rewrite Hlen.
  rewrite bind_assoc, bind_ret.
  by erewrite bind_run_ok by by apply finalize_run.
Qed.

(** a call that failed, was busy or was not answered *)
Lemma status_not_completed ev now_patch now_log call_sid call_status l c s :
  interview_contexts s !! call_sid = Some l → heap s !! l = Some c →
  terminal_without_evaluation call_status = true →
  twilio_status_callback json_loads ev now_patch now_log call_sid call_status s
  = (Ok "ok",
     set_interview_contexts (delete call_sid (interview_contexts s))
       (set_log_writes (log_writes s ++ [make_log_data now_log call_sid c call_status]) s)).
Proof.
  intros Hr Hl Hst. unfold twilio_status_callback.
  assert (String.eqb call_status "completed" = false) as ->.
  { apply String.eqb_neq. intros ->. done. }
  rewrite Hst.
  rewrite bind_assoc. unfold registry_get at 1. unfold bind at 1. rewrite Hr.
  by erewrite bind_run_ok by by apply finalize_run.
Qed.

(** no session under that key: nothing happens, whatever the status *)
Lemma status_absent ev now_patch now_log call_sid call_status s :
  interview_contexts s !! call_sid = None →
  twilio_status_callback json_loads ev now_patch now_log call_sid call_status s
  = (Ok "ok", s).
Proof.
  intros Hr. unfold twilio_status_callback.
  destruct (String.eqb call_status "completed").
  - rewrite bind_assoc. unfold registry_get at 1. unfold bind at 1. by rewrite Hr.
  - destruct (terminal_without_evaluation call_status); [|done].
    rewrite bind_assoc. unfold registry_get at 1. unfold bind at 1. by rewrite Hr.
Qed.

(** a status that is not terminal *)
Lemma status_not_terminal ev now_patch now_log call_sid call_status s :
  String.eqb call_status "completed" = false →
  terminal_without_evaluation call_status = false →
  twilio_status_callback json_loads ev now_patch now_log call_sid call_status s
  = (Ok "ok", s).
Proof. intros H1 H2. unfold twilio_status_callback. by rewrite H1, H2. Qed.

(** *** [start_phone_interview] and [twilio_voice_webhook] *)

Lemma start_phone_interview_raised msg request s :
  start_phone_interview true (CallRaises msg) request s
  = (Raise (HTTPException 500 ("Failed to initiate call: " +:+ msg)),
     {| heap := heap s ++ [new_context request];
        interview_contexts := <[temp_key request := length (heap s)]> (interview_contexts s);
        log_writes := log_writes s; eval_calls := eval_calls s; patches := patches s |}).
Proof. reflexivity. Qed.

Lemma start_phone_interview_created sid request s :
  start_phone_interview true (CallCreated sid) request s
  = (Ok (sid, "calling"),
     {| heap := heap s ++ [new_context request];
        interview_contexts :=
          <[sid := length (heap s)]> (delete (temp_key request) (interview_contexts s));
        log_writes := log_writes s; eval_calls := eval_calls s; patches := patches s |}).
Proof.
  unfold start_phone_interview. cbn [negb]. apply try_except_ok.
  unfold new_dict at 1. unfold bind at 1.
  unfold registry_set at 1. unfold bind at 1.
  unfold calls_create. rewrite bind_ret.
  unfold rekey, registry_pop. rewrite bind_assoc. unfold bind at 1.
  cbn [interview_contexts set_interview_contexts set_heap].
  rewrite lookup_insert_eq. cbn. by rewrite delete_insert_eq.
Qed.

Lemma start_phone_interview_unconfigured twilio request s :
  start_phone_interview false twilio request s
  = (Raise (HTTPException 500 "Twilio credentials not configured"), s).
Proof. reflexivity. Qed.

Lemma twilio_voice_webhook_state call_sid s :
  (twilio_voice_webhook WEBHOOK_BASE_URL openai_tts call_sid s).2
  = set_heap (heap s ++ [ {| jd := Some ""; resume := Some "";
                             conversation := None; evaluation := None |} ]) s.
Proof. reflexivity. Qed.

(** *** The registry invariant *)

Lemma inv_wf s : inv s → wf s.
Proof.
  intros [Hobj _] k l Hk. destruct (Hobj k l Hk) as (c & Hc & _).
  by eapply lookup_lt_Some.
Qed.

Lemma inv_init : inv init.
Proof. split; intros *; cbn; by rewrite lookup_empty. Qed.

(** [inv] reads the heap and the registry only *)
Lemma inv_ext s s' :
  heap s' = heap s → interview_contexts s' = interview_contexts s →
  inv s → inv s'.
Proof. unfold inv. by intros -> ->. Qed.

Lemma inv_grow s s' c :
  heap s' = heap s ++ [c] → interview_contexts s' = interview_contexts s →
  inv s → inv s'.
Proof.
  intros Hh Hr [Hobj Hinj]. unfold inv. rewrite Hh, Hr. split; [|done].
  intros k l Hk. destruct (Hobj k l Hk) as (c0 & Hc0 & He).
  exists c0. split; [|done]. by apply lookup_app_l_Some.
Qed.

(** a new object under a key; the registry may first have lost entries *)
Lemma inv_alloc s s' c k r :
  heap s' = heap s ++ [c] →
  interview_contexts s' = <[k := length (heap s)]> r →
  r ⊆ interview_contexts s →
  evaluation c = None →
  inv s → inv s'.
Proof.
  intros Hh Hr Hsub He Hinv. pose proof (inv_wf _ Hinv) as Hwf.
  destruct Hinv as [Hobj Hinj]. unfold inv. rewrite Hh, Hr. split.
  - intros k' l. rewrite lookup_insert. case_decide as Hk.
    + intros [= <-]. exists c. by rewrite list_lookup_middle.
    + intros Hl. eapply lookup_weaken in Hl; [|done].
      destruct (Hobj k' l Hl) as (c0 & Hc0 & He0).
      exists c0. split; [|done]. by apply lookup_app_l_Some.
  - intros k1 k2 l. rewrite !lookup_insert.
    case_decide as H1; case_decide as H2; try congruence.
    + intros [= <-] Hl. eapply lookup_weaken in Hl; [|done].
      apply Hwf in Hl. lia.
    + intros Hl [= <-]. eapply lookup_weaken in Hl; [|done].
      apply Hwf in Hl. lia.
    + intros Hl1 Hl2. eapply Hinj; by eapply lookup_weaken.
Qed.

(** an object is replaced by one that carries no evaluation *)
Lemma inv_update s s' l c :
  heap s' = <[l := c]> (heap s) →
  interview_contexts s' = interview_contexts s →
  evaluation c = None →
  inv s → inv s'.
Proof.
  intros Hh Hr He [Hobj Hinj]. unfold inv. rewrite Hh, Hr. split; [|done].
  intros k l' Hk. destruct (Hobj k l' Hk) as (c0 & Hc0 & He0).
  destruct (decide (l = l')) as [->|Hne].
  - exists c. split; [|done]. apply list_lookup_insert_eq. by eapply lookup_lt_Some.
  - exists c0. by rewrite list_lookup_insert_ne.
Qed.

(** a key is removed; its object may have changed *)
Lemma inv_finalize s s' k l c :
  interview_contexts s !! k = Some l →
  heap s' = <[l := c]> (heap s) →
  interview_contexts s' = delete k (interview_contexts s) →
  inv s → inv s'.
Proof.
  intros Hk Hh Hr [Hobj Hinj]. unfold inv. rewrite Hh, Hr. split.
  - intros k' l'. rewrite lookup_delete. case_decide as Hkk; [done|].
    intros Hl'. destruct (Hobj k' l' Hl') as (c0 & Hc0 & He0).
    exists c0. split; [|done]. rewrite list_lookup_insert_ne; [done|].
    intros ->. by specialize (Hinj _ _ _ Hk Hl').
  - intros k1 k2 l'. rewrite !lookup_delete.
    do 2 (case_decide; [done|]). apply Hinj.
Qed.

Lemma inv_delete s s' k :
  heap s' = heap s →
  interview_contexts s' = delete k (interview_contexts s) →
  inv s → inv s'.
Proof.
  intros Hh Hr [Hobj Hinj]. unfold inv. rewrite Hh, Hr. split.
  - intros k' l'. rewrite lookup_delete. case_decide; [done|]. apply Hobj.
  - intros k1 k2 l'. rewrite !lookup_delete.
    do 2 (case_decide; [done|]). apply Hinj.
Qed.

Lemma insert_snoc (h : list context) c c' :
  <[length h := c']> (h ++ [c]) = h ++ [c'].
Proof. rewrite insert_app_r_alt by done. by rewrite Nat.sub_diag. Qed.

(** what a registered key tells about the object of the turn *)
Lemma turn_context_registered s call_sid l :
  wf s → interview_contexts s !! call_sid = Some l →
  turn_loc s call_sid = l ∧ turn_context s call_sid = heap s !! l.
Proof.
  intros Hwf Hl. unfold turn_context, turn_loc. rewrite Hl. cbn.
  split; [done|]. apply lookup_app_l. by eapply Hwf.
Qed.

Lemma turn_context_unregistered s call_sid :
  interview_contexts s !! call_sid = None →
  turn_loc s call_sid = length (heap s)
  ∧ turn_context s call_sid = Some default_context.
Proof.
  intros Hl. unfold turn_context, turn_loc. rewrite Hl. cbn.
  split; [done|]. by apply list_lookup_middle.
Qed.

Lemma inv_process_response gen now call_sid speech s :
  inv s →
  inv (process_response WEBHOOK_BASE_URL openai_tts gen now call_sid speech s).2.
Proof.
  intros Hinv. pose proof (inv_wf _ Hinv) as Hwf.
  destruct (interview_contexts s !! call_sid) as [l|] eqn:Hl.
  - destruct (turn_context_registered _ _ _ Hwf Hl) as [Hloc Hctx].
    destruct (proj1 Hinv _ _ Hl) as (c & Hc & He). rewrite Hc in Hctx.
    apply (inv_grow s (set_heap (heap s ++ [default_context]) s) default_context)
      in Hinv; [|done..].
    destruct gen as [msg|content].
    + rewrite (process_response_raised _ _ _ _ _ _ Hctx), Hloc.
      eapply (inv_update _ _ l (set_conversation _ c)); [..|exact Hinv];
        [reflexivity|reflexivity|exact He].
    + rewrite (process_response_returned _ _ _ _ _ _ Hctx), Hloc.
      eapply (inv_update _ _ l (set_conversation _ c)); [..|exact Hinv];
        [reflexivity| |exact He].
      cbn. by apply insert_id.
  - destruct (turn_context_unregistered _ _ Hl) as [Hloc Hctx].
    destruct gen as [msg|content].
    + rewrite (process_response_raised _ _ _ _ _ _ Hctx), Hloc.
      eapply inv_grow; [..|exact Hinv]; [apply insert_snoc|reflexivity].
    + rewrite (process_response_returned _ _ _ _ _ _ Hctx), Hloc.
      eapply inv_alloc; [..|exact Hinv];
        [apply insert_snoc|reflexivity|done|done].
Qed.

Lemma inv_start_phone_interview twilio request s :
  inv s → inv (start_phone_interview twilio_configured twilio request s).2.
Proof.
  intros Hinv. destruct twilio_configured.
  - destruct twilio as [msg|sid].
    + rewrite start_phone_interview_raised.
      eapply inv_alloc; [..|exact Hinv]; [reflexivity|reflexivity|done|done].
    + rewrite start_phone_interview_created.
      eapply inv_alloc; [..|exact Hinv]; [reflexivity|reflexivity| |done].
      apply delete_subseteq.
  - by rewrite start_phone_interview_unconfigured.
Qed.

Lemma inv_twilio_voice_webhook call_sid s :
  inv s → inv (twilio_voice_webhook WEBHOOK_BASE_URL openai_tts call_sid s).2.
Proof.
  intros Hinv. rewrite twilio_voice_webhook_state.
  by eapply inv_grow; [..|exact Hinv].
Qed.

Lemma inv_twilio_status_callback ev now_patch now_log call_sid call_status s :
  inv s →
  inv (twilio_status_callback json_loads ev now_patch now_log call_sid call_status s).2.
Proof.
  intros Hinv.
  destruct (interview_contexts s !! call_sid) as [l|] eqn:Hl;
    [|by rewrite status_absent].
  destruct (proj1 Hinv _ _ Hl) as (c & Hc & He).
  destruct (String.eqb call_status "completed") eqn:Hst.
  - apply String.eqb_eq in Hst as ->.
    destruct (le_lt_dec 2 (length (default [] (conversation c)))) as [Hlen|Hlen].
    + rewrite (status_completed_evaluated _ _ _ _ _ _ _ Hl Hc Hlen).
      by eapply inv_finalize; [exact Hl|..|exact Hinv].
    + rewrite (status_completed_short _ _ _ _ _ _ _ Hl Hc Hlen).
      by eapply inv_delete; [..|exact Hinv].
  - destruct (terminal_without_evaluation call_status) eqn:Hterm.
    + rewrite (status_not_completed _ _ _ _ _ _ _ _ Hl Hc Hterm).
      by eapply inv_delete; [..|exact Hinv].
    + by rewrite status_not_terminal.
Qed.

Lemma inv_step s s' :
  step WEBHOOK_BASE_URL twilio_configured json_loads openai_tts s s' →
  inv s → inv s'.
Proof.
  destruct 1; intros Hinv.
  - by apply inv_start_phone_interview.
  - by apply inv_twilio_voice_webhook.
  - by apply inv_process_response.
  - by apply inv_twilio_status_callback.
Qed.

Lemma reachable_inv s :
  reachable WEBHOOK_BASE_URL twilio_configured json_loads openai_tts s → inv s.
Proof.
  unfold reachable. revert s. apply rtc_ind_r; [apply inv_init|].
  intros y z _ Hstep IH. by eapply inv_step.
Qed.

(** *** The transcript across a turn *)

Lemma transcript_registered s call_sid l c :
  interview_contexts s !! call_sid = Some l → heap s !! l = Some c →
  transcript s call_sid = default [] (conversation c).
Proof. intros Hl Hc. unfold transcript, session. by rewrite Hl; cbn; rewrite Hc. Qed.

Lemma transcript_unregistered s call_sid :
  interview_contexts s !! call_sid = None → transcript s call_sid = [].
Proof. intros Hl. unfold transcript, session. by rewrite Hl. Qed.

(** a returned turn adds the candidate's entry and the interviewer's *)
Lemma transcript_returned content now call_sid speech s :
  wf s →
  transcript (process_response WEBHOOK_BASE_URL openai_tts (CompletionContent content)
                now call_sid speech s).2 call_sid
  = transcript s call_sid ++ exchange speech content.
Proof.
  intros Hwf. destruct (wf_turn_context s call_sid Hwf) as [c Hctx].
  rewrite (process_response_returned _ _ _ _ _ _ Hctx). cbn [snd].
  assert (Hlt : turn_loc s call_sid < length (heap s ++ [default_context]))
    by by eapply lookup_lt_Some.
  erewrite transcript_registered; cycle 1.
  { cbn. apply lookup_insert_eq. }
  { cbn. by apply list_lookup_insert_eq. }
  cbn [conversation set_conversation default from_option id].
  rewrite <- app_assoc. f_equal.
  destruct (interview_contexts s !! call_sid) as [l|] eqn:Hl.
  - destruct (turn_context_registered _ _ _ Hwf Hl) as [_ Hc].
    rewrite Hc in Hctx. by erewrite transcript_registered.
  - destruct (turn_context_unregistered _ _ Hl) as [_ Hc].
    rewrite Hc in Hctx. injection Hctx as <-. by rewrite transcript_unregistered.
Qed.

(** a failed turn adds the candidate's entry alone, and only to a
    session that is registered *)
Lemma transcript_raised msg now call_sid speech s :
  wf s →
  transcript (process_response WEBHOOK_BASE_URL openai_tts (CompletionRaises msg)
                now call_sid speech s).2 call_sid
  = match interview_contexts s !! call_sid with
    | Some _ => transcript s call_sid ++ [Message user (Some speech)]
    | None => []
    end.
Proof.
  intros Hwf. destruct (wf_turn_context s call_sid Hwf) as [c Hctx].
  rewrite (process_response_raised _ _ _ _ _ _ Hctx). cbn [snd].
  assert (Hlt : turn_loc s call_sid < length (heap s ++ [default_context]))
    by by eapply lookup_lt_Some.
  destruct (interview_contexts s !! call_sid) as [l|] eqn:Hl.
  - destruct (turn_context_registered _ _ _ Hwf Hl) as [Hloc Hc].
    rewrite Hc in Hctx. rewrite Hloc in *.
    erewrite (transcript_registered (set_heap _ s)); cycle 1.
    { exact Hl. }
    { cbn. by apply list_lookup_insert_eq. }
    by erewrite (transcript_registered s).
  - by apply transcript_unregistered.
Qed.

(** *** The log record *)



Lemma digit_code n : nat_of_ascii (digit n) = 48 + n `mod` 10.
Proof.
  unfold digit. apply nat_ascii_embedding.
  pose proof (Nat.mod_upper_bound n 10). lia.
Qed.



Lemma append_cons c s r : String c s +:+ r = String c (s +:+ r).
Proof. reflexivity. Qed.

Lemma append_empty_r s : s +:+ "" = s.
Proof. induction s as [|c s IH]; [done|]. by rewrite append_cons, IH. Qed.






(** ** The claims *)

Lemma shouldEnd_turn_response call_sid ai_response n :
  shouldEnd (turn_response WEBHOOK_BASE_URL call_sid ai_response n) = (10 <=? n)%nat.
Proof. unfold turn_response. by destruct (10 <=? n)%nat. Qed.

(** the object of the turn holds the transcript of the call *)
Lemma turn_context_transcript s call_sid c :
  wf s → turn_context s call_sid = Some c →
  default [] (conversation c) = transcript s call_sid.
Proof.
  intros Hwf Hctx.
  destruct (interview_contexts s !! call_sid) as [l|] eqn:Hl.
  - destruct (turn_context_registered _ _ _ Hwf Hl) as [_ Hc].
    rewrite Hc in Hctx. by erewrite transcript_registered.
  - destruct (turn_context_unregistered _ _ Hl) as [_ Hc].
    rewrite Hc in Hctx. injection Hctx as <-.
    by rewrite transcript_unregistered.
Qed.


(** C4, as amended.  When the Generation Client fails, the turn still
    returns a response, built on the fixed apology; the registry, the
    log and the other traces are left as they were, and the transcript
    of a registered session gains the candidate's entry only (a call
    that has no session still has none). *)
Theorem failed_generation_turn s msg now call_sid speech :
  reachable WEBHOOK_BASE_URL twilio_configured json_loads openai_tts s →
  ∃ s',
    process_response WEBHOOK_BASE_URL openai_tts (CompletionRaises msg)
      now call_sid speech s
    = (Ok (turn_response WEBHOOK_BASE_URL call_sid apology
             (S (length (transcript s call_sid)))), s')
    ∧ interview_contexts s' = interview_contexts s
    ∧ log_writes s' = log_writes s
    ∧ eval_calls s' = eval_calls s
    ∧ patches s' = patches s
    ∧ transcript s' call_sid
      = match interview_contexts s !! call_sid with
        | Some _ => transcript s call_sid ++ [Message user (Some speech)]
        | None => []
        end.
Proof.
  intros Hreach. pose proof (inv_wf _ (reachable_inv _ Hreach)) as Hwf.
  pose proof (transcript_raised msg now call_sid speech s Hwf) as Ht.
  destruct (wf_turn_context s call_sid Hwf) as [c Hctx].
  rewrite (process_response_raised _ _ _ _ _ _ Hctx) in Ht |- *.
  cbn [snd] in Ht.
  rewrite (turn_context_transcript _ _ _ Hwf Hctx) in Ht |- *.
  eexists. split; [by rewrite length_app, Nat.add_comm|].
  split_and!; try reflexivity. exact Ht.
Qed.

(** *** Runs of turns *)

Lemma inv_turns inputs call_sid s :
  inv s → inv (turns WEBHOOK_BASE_URL openai_tts inputs call_sid s).
Proof.
  revert s. induction inputs as [|[[gen now] speech] rest IH]; intros s Hinv; [done|].
  cbn [turns]. apply IH. by apply inv_process_response.
Qed.

Lemma transcript_turns_returned xs call_sid s :
  inv s →
  transcript (turns WEBHOOK_BASE_URL openai_tts (returned <$> xs) call_sid s) call_sid
  = transcript s call_sid ++ flat_map (λ x, exchange x.2 x.1.1) xs.
Proof.
  revert s. induction xs as [|[[content now] speech] xs IH]; intros s Hinv.
  - cbn. by rewrite app_nil_r.
  - cbn [fmap list_fmap returned turns flat_map fst snd].
    rewrite IH by by apply inv_process_response.
    rewrite transcript_returned by by apply inv_wf.
    by rewrite <- app_assoc.
Qed.

Lemma alternates_exchanges (xs : list (option string * datetime * string)) :
  alternates user (flat_map (λ x, exchange x.2 x.1.1) xs) = true.
Proof. induction xs as [|x xs IH]; [done|]. cbn. exact IH. Qed.

Lemma length_exchanges (xs : list (option string * datetime * string)) :
  length (flat_map (λ x, exchange x.2 x.1.1) xs) = 2 * length xs.
Proof. induction xs as [|x xs IH]; [done|]. cbn [flat_map length app exchange]. lia. Qed.

(** C5, as amended.  From a reachable state in which the call has no
    transcript yet, after any [k] of a run of turns whose completions
    all arrive the transcript alternates strictly beginning with the
    candidate and has [2 * k] entries: it is even before each new
    utterance, and the greeting is no part of it. *)
Theorem transcript_alternates_from_candidate s call_sid
    (xs : list (option string * datetime * string)) (k : nat) :
  reachable WEBHOOK_BASE_URL twilio_configured json_loads openai_tts s →
  transcript s call_sid = [] →
  k ≤ length xs →
  let t := transcript (turns WEBHOOK_BASE_URL openai_tts
                         (returned <$> take k xs) call_sid s) call_sid in
  alternates user t = true ∧ length t = 2 * k.
Proof.
  intros Hreach Hempty Hk t. subst t.
  rewrite transcript_turns_returned by by apply reachable_inv.
  rewrite Hempty. cbn [app]. split; [apply alternates_exchanges|].
  rewrite length_exchanges, length_take. lia.
Qed.

(** C6, as amended.  Moving a session from [old] to [new] never fails on
    a taken [new]: when [old] is registered the move succeeds, [new]
    then refers to the very object [old] referred to, the heap is
    untouched, [old] is gone unless it is [new] itself, and the other
    keys keep their entries; when [old] is not registered the move
    raises [KeyError] and changes nothing. *)
Theorem rekey_moves_session old new s :
  (∀ l, interview_contexts s !! old = Some l →
     ∃ s', rekey old new s = (Ok tt, s')
       ∧ heap s' = heap s
       ∧ interview_contexts s' !! new = Some l
       ∧ session s' new = session s old
       ∧ (old ≠ new → interview_contexts s' !! old = None)
       ∧ (∀ k, k ≠ old → k ≠ new →
            interview_contexts s' !! k = interview_contexts s !! k))
  ∧ (interview_contexts s !! old = None →
     rekey old new s = (Raise (KeyError old), s)).
Proof.
  split.
  - intros l Hl. unfold rekey, registry_pop, registry_set, bind. rewrite Hl.
    eexists. split; [reflexivity|]. cbn. split_and!.
    + done.
    + apply lookup_insert_eq.
    + unfold session. cbn. by rewrite lookup_insert_eq, Hl.
    + intros Hne. rewrite lookup_insert_ne by done. apply lookup_delete_eq.
    + intros k Hk1 Hk2. rewrite lookup_insert_ne by done.
      by apply lookup_delete_ne.
  - intros Hl. unfold rekey, registry_pop, bind. by rewrite Hl.
Qed.

(** C7.  Once a registered session has been finalised by a terminal
    status, which writes exactly one log record and removes the session,
    a second status notification for the same call, terminal or not,
    returns ["ok"] again and leaves the state, hence the log, exactly as
    it was. *)
Theorem finalize_idempotent s ev1 ev2 now_patch1 now_log1 now_patch2 now_log2
    call_sid status1 status2 :
  reachable WEBHOOK_BASE_URL twilio_configured json_loads openai_tts s →
  is_Some (interview_contexts s !! call_sid) →
  terminal status1 = true →
  ∃ s1 r,
    twilio_status_callback json_loads ev1 now_patch1 now_log1 call_sid status1 s
    = (Ok "ok", s1)
    ∧ log_writes s1 = log_writes s ++ [r]
    ∧ log_call_sid r = call_sid ∧ log_status r = status1
    ∧ interview_contexts s1 !! call_sid = None
    ∧ twilio_status_callback json_loads ev2 now_patch2 now_log2 call_sid status2 s1
      = (Ok "ok", s1).
Proof.
  intros Hreach [l Hl] Hst1. pose proof (reachable_inv _ Hreach) as Hinv.
  destruct (proj1 Hinv _ _ Hl) as (c & Hc & He).
  assert (∃ s1 r,
    twilio_status_callback json_loads ev1 now_patch1 now_log1 call_sid status1 s
    = (Ok "ok", s1)
    ∧ log_writes s1 = log_writes s ++ [r]
    ∧ log_call_sid r = call_sid ∧ log_status r = status1
    ∧ interview_contexts s1 !! call_sid = None) as (s1 & r & Hrun & Hlog & Hsid & Hstat & Hgone).
  { unfold terminal in Hst1.
    destruct (String.eqb status1 "completed") eqn:Hcompleted.
    - apply String.eqb_eq in Hcompleted as ->.
      destruct (le_lt_dec 2 (length (default [] (conversation c)))) as [Hlen|Hlen].
      + rewrite (status_completed_evaluated _ _ _ _ _ _ _ Hl Hc Hlen).
        eexists _, _. split; [reflexivity|]. cbn. split_and!; try done.
        apply lookup_delete_eq.
      + rewrite (status_completed_short _ _ _ _ _ _ _ Hl Hc Hlen).
        eexists _, _. split; [reflexivity|]. cbn. split_and!; try done.
        apply lookup_delete_eq.
    - cbn in Hst1.
      rewrite (status_not_completed _ _ _ _ _ _ _ _ Hl Hc Hst1).
      eexists _, _. split; [reflexivity|]. cbn. split_and!; try done.
      apply lookup_delete_eq. }
  exists s1, r. split_and!; try done. by apply status_absent.
Qed.

(** C8.  When a registered session of a reachable state receives the
    status ["completed"], [evaluate_interview] is called exactly when the
    transcript has at least 2 entries; the one record then written
    carries the transcript, and for a shorter transcript its evaluation
    is null. *)
Theorem evaluation_iff_full_exchange s ev now_patch now_log call_sid :
  reachable WEBHOOK_BASE_URL twilio_configured json_loads openai_tts s →
  is_Some (interview_contexts s !! call_sid) →
  ∃ s' r,
    twilio_status_callback json_loads ev now_patch now_log call_sid "completed" s
    = (Ok "ok", s')
    ∧ log_writes s' = log_writes s ++ [r]
    ∧ log_status r = "completed"
    ∧ log_conversation r = transcript s call_sid
    ∧ (eval_calls s' = eval_calls s ++ [call_sid]
       ↔ 2 ≤ length (transcript s call_sid))
    ∧ (length (transcript s call_sid) < 2 →
       eval_calls s' = eval_calls s ∧ log_evaluation r = JNull).
Proof.
  intros Hreach [l Hl]. pose proof (reachable_inv _ Hreach) as Hinv.
  destruct (proj1 Hinv _ _ Hl) as (c & Hc & He).
  rewrite (transcript_registered _ _ _ _ Hl Hc).
  destruct (le_lt_dec 2 (length (default [] (conversation c)))) as [Hlen|Hlen].
  - rewrite (status_completed_evaluated _ _ _ _ _ _ _ Hl Hc Hlen).
    eexists _, _. split; [reflexivity|]. cbn. split_and!; try done. lia.
  - rewrite (status_completed_short _ _ _ _ _ _ _ Hl Hc Hlen).
    eexists _, _. split; [reflexivity|].
    cbn [log_writes log_status log_conversation log_evaluation eval_calls
           set_interview_contexts set_log_writes make_log_data].
    split_and!; try done.
    + split; [|lia]. intros Heq. apply (f_equal length) in Heq.
      rewrite length_app in Heq. cbn in Heq. lia.
    + intros _. split; [done|]. cbn [make_log_data log_evaluation]. by rewrite He.
Qed.


(** C10.  When the credentials are configured and the call-creation
    request raises, [start_phone_interview] raises an HTTP 500 error and
    the provisional entry stored before the request is still in the
    registry, referring to the new session: the registry is not what it
    was before the call. *)
Theorem provisional_entry_survives_failure s msg request :
  reachable WEBHOOK_BASE_URL twilio_configured json_loads openai_tts s →
  twilio_configured = true →
  ∃ s' l,
    start_phone_interview twilio_configured (CallRaises msg) request s
    = (Raise (HTTPException 500 ("Failed to initiate call: " +:+ msg)), s')
    ∧ interview_contexts s' !! ("pending_" +:+ phone_number request) = Some l
    ∧ heap s' !! l = Some {| jd := Some (req_jd request);
                             resume := Some (req_resume request);
                             conversation := None; evaluation := None |}
    ∧ interview_contexts s' ≠ interview_contexts s.
Proof.
  intros Hreach Hconf. pose proof (inv_wf _ (reachable_inv _ Hreach)) as Hwf.
  rewrite Hconf, start_phone_interview_raised. eexists _, _.
  split; [reflexivity|]. cbn. split_and!.
  - apply lookup_insert_eq.
  - by apply list_lookup_middle.
  - intros Heq.
    assert (interview_contexts s !! temp_key request = Some (length (heap s))) as Hl
      by (rewrite <- Heq; apply lookup_insert_eq).
    apply Hwf in Hl. lia.
Qed.



Lemma evaluation_failed_value ev :
  evaluation_failed json_loads ev = true →
  evaluation_value json_loads ev = fallback_evaluation.
Proof.
  destruct ev as [msg|[text|]]; cbn; try done.
  by destruct (json_loads (fenced_payload text)).
Qed.

(** C3.  [evaluate_interview] returns a value from every state and for
    every answer of the Evaluation Client; when the client fails, or its
    answer carries no content, or what is left of it after the code
    fences are removed does not parse, that value is the fixed fallback:
    five sub-scores of 5, an overall score of 5, the decision PENDING and
    the concern that automatic evaluation failed. *)
Theorem evaluate_interview_never_raises ev call_sid l s :
  (∃ v, evaluate_interview json_loads ev call_sid l s
        = (Ok v, set_eval_calls (eval_calls s ++ [call_sid]) s))
  ∧ (evaluation_failed json_loads ev = true →
     (evaluate_interview json_loads ev call_sid l s).1 = Ok fallback_evaluation)
  ∧ sub_scores fallback_evaluation = Some [5; 5; 5; 5; 5]%Z
  ∧ reported_decision fallback_evaluation = Some (JStr "PENDING")
  ∧ ∃ fields, fallback_evaluation = JObj fields
      ∧ assoc_get "overall_score" fields = Some (JInt 5)
      ∧ assoc_get "areas_of_concern" fields
        = Some (JArr [JStr "Automatic evaluation failed"]).
Proof.
  split_and!; try reflexivity.
  - apply evaluate_interview_total.
  - intros Hfail. destruct (heap s !! l) as [c|] eqn:Hc.
    + rewrite (evaluate_interview_run _ _ _ _ _ Hc). cbn.
      by rewrite evaluation_failed_value.
    + unfold evaluate_interview, note_eval_call. unfold bind at 1.
      erewrite try_except_raise; [reflexivity|].
      unfold bind, deref. cbn [heap set_eval_calls]. by rewrite Hc.
  - by eexists.
Qed.

(** ** Further properties of the handlers *)


(** the object of the turn belongs to no other key *)
Lemma turn_loc_other s call_sid k l :
  inv s → k ≠ call_sid → interview_contexts s !! k = Some l →
  l ≠ turn_loc s call_sid ∧ l < length (heap s).
Proof.
  intros Hinv Hne Hl. pose proof (inv_wf _ Hinv _ _ Hl) as Hlt. split; [|done].
  unfold turn_loc. destruct (interview_contexts s !! call_sid) as [l0|] eqn:Hsid; cbn.
  - intros ->. by specialize (proj2 Hinv _ _ _ Hl Hsid).
  - lia.
Qed.

(** X2.  A turn of one call leaves every other call alone: the registry
    entry and the session of any other key are what they were, whether
    the completion arrives or not. *)
Theorem process_response_other_sessions gen now call_sid speech s k :
  reachable WEBHOOK_BASE_URL twilio_configured json_loads openai_tts s →
  k ≠ call_sid →
  interview_contexts
    (process_response WEBHOOK_BASE_URL openai_tts gen now call_sid speech s).2 !! k
  = interview_contexts s !! k
  ∧ session (process_response WEBHOOK_BASE_URL openai_tts gen now call_sid speech s).2 k
    = session s k.
Proof.
  intros Hreach Hne. pose proof (reachable_inv _ Hreach) as Hinv.
  destruct (wf_turn_context s call_sid (inv_wf _ Hinv)) as [c Hctx].
  assert (Hheap : ∀ c' l, interview_contexts s !! k = Some l →
            <[turn_loc s call_sid := c']> (heap s ++ [default_context]) !! l
            = heap s !! l).
  { intros c' l Hl. destruct (turn_loc_other _ _ _ _ Hinv Hne Hl) as [Hl1 Hl2].
    rewrite list_lookup_insert_ne by done. by apply lookup_app_l. }
  destruct gen as [msg|content].
  - rewrite (process_response_raised _ _ _ _ _ _ Hctx). cbn [snd]. split; [done|].
    unfold session. cbn [interview_contexts heap set_heap].
    destruct (interview_contexts s !! k) as [l|] eqn:Hl; [|done]. cbn. by apply Hheap.
  - rewrite (process_response_returned _ _ _ _ _ _ Hctx). cbn [snd].
    unfold session. cbn [interview_contexts heap].
    rewrite lookup_insert_ne by done. split; [done|].
    destruct (interview_contexts s !! k) as [l|] eqn:Hl; [|done]. cbn. by apply Hheap.
Qed.

(** X3.  A status notification for one call leaves every other call
    alone. *)
Theorem twilio_status_callback_other_sessions ev now_patch now_log call_sid
    call_status s k :
  reachable WEBHOOK_BASE_URL twilio_configured json_loads openai_tts s →
  k ≠ call_sid →
  interview_contexts
    (twilio_status_callback json_loads ev now_patch now_log call_sid call_status s).2 !! k
  = interview_contexts s !! k
  ∧ session
      (twilio_status_callback json_loads ev now_patch now_log call_sid call_status s).2 k
    = session s k.
Proof.
  intros Hreach Hne. pose proof (reachable_inv _ Hreach) as Hinv.
  destruct (interview_contexts s !! call_sid) as [l|] eqn:Hl;
    [|by rewrite status_absent].
  destruct (proj1 Hinv _ _ Hl) as (c & Hc & He).
  assert (Hdel : ∀ s', heap s' = heap s →
            interview_contexts s' = delete call_sid (interview_contexts s) →
            interview_contexts s' !! k = interview_contexts s !! k
            ∧ session s' k = session s k).
  { intros s' Hh Hr. unfold session. rewrite Hh, Hr.
    by rewrite lookup_delete_ne. }
  destruct (String.eqb call_status "completed") eqn:Hst.
  - apply String.eqb_eq in Hst as ->.
    destruct (le_lt_dec 2 (length (default [] (conversation c)))) as [Hlen|Hlen].
    + rewrite (status_completed_evaluated _ _ _ _ _ _ _ Hl Hc Hlen). cbn [snd].
      unfold session. cbn [interview_contexts heap].
      rewrite lookup_delete_ne by done. split; [done|].
      destruct (interview_contexts s !! k) as [l'|] eqn:Hl'; [|done]. cbn.
      apply list_lookup_insert_ne. intros ->.
      by specialize (proj2 Hinv _ _ _ Hl Hl').
    + rewrite (status_completed_short _ _ _ _ _ _ _ Hl Hc Hlen). by apply Hdel.
  - destruct (terminal_without_evaluation call_status) eqn:Hterm.
    + rewrite (status_not_completed _ _ _ _ _ _ _ _ Hl Hc Hterm). by apply Hdel.
    + by rewrite status_not_terminal.
Qed.

(** a registered call stays registered across a turn *)
Lemma process_response_keeps_registered gen now call_sid speech s :
  wf s → is_Some (interview_contexts s !! call_sid) →
  is_Some (interview_contexts
             (process_response WEBHOOK_BASE_URL openai_tts gen now call_sid speech s).2
           !! call_sid).
Proof.
  intros Hwf Hreg. destruct (wf_turn_context s call_sid Hwf) as [c Hctx].
  destruct gen as [msg|content].
  - by rewrite (process_response_raised _ _ _ _ _ _ Hctx).
  - rewrite (process_response_returned _ _ _ _ _ _ Hctx). cbn.
    rewrite lookup_insert_eq. by eexists.
Qed.

Lemma transcript_length_turn gen now call_sid speech s :
  wf s → is_Some (interview_contexts s !! call_sid) →
  length (transcript
            (process_response WEBHOOK_BASE_URL openai_tts gen now call_sid speech s).2
            call_sid)
  = length (transcript s call_sid) + entries_added gen.
Proof.
  intros Hwf [l Hl]. destruct gen as [msg|content].
  - rewrite transcript_raised by done. rewrite Hl. by rewrite length_app.
  - rewrite transcript_returned by done. by rewrite length_app.
Qed.

(** X4.  For a registered call, a run of [process_response] calls makes
    the transcript longer by two entries for each completion that arrived
    and by one for each that failed: no call is absorbed, and a failed
    completion leaves the candidate's entry without an answer. *)
Theorem transcript_length_after_turns inputs call_sid s :
  reachable WEBHOOK_BASE_URL twilio_configured json_loads openai_tts s →
  is_Some (interview_contexts s !! call_sid) →
  length (transcript (turns WEBHOOK_BASE_URL openai_tts inputs call_sid s) call_sid)
  = length (transcript s call_sid)
    + sum_list ((λ x, entries_added x.1.1) <$> inputs).
Proof.
  intros Hreach. pose proof (reachable_inv _ Hreach) as Hinv. clear Hreach.
  revert s Hinv. induction inputs as [|[[gen now] speech] rest IH]; intros s Hinv Hreg.
  - cbn. lia.
  - cbn [turns fmap list_fmap sum_list sum_list_with fst].
    rewrite IH.
    + rewrite transcript_length_turn by (by apply inv_wf || done).
      cbn. lia.
    + by apply inv_process_response.
    + apply process_response_keeps_registered; [by apply inv_wf|done].
Qed.

(** X5.  For a call whose transcript is empty and whose completions all
    arrive, the call that follows [n] earlier ones hangs up exactly when
    [n] is at least 4: the interview ends with the fifth exchange, not
    before and not after. *)
Theorem hangs_up_at_fifth_exchange s call_sid
    (xs : list (option string * datetime * string)) content now speech :
  reachable WEBHOOK_BASE_URL twilio_configured json_loads openai_tts s →
  transcript s call_sid = [] →
  ends_call
    (process_response WEBHOOK_BASE_URL openai_tts (CompletionContent content)
       now call_sid speech
       (turns WEBHOOK_BASE_URL openai_tts (returned <$> xs) call_sid s)).1
  = (4 <=? length xs).
Proof.
  intros Hreach Hempty. pose proof (reachable_inv _ Hreach) as Hinv.
  pose proof (inv_turns (returned <$> xs) call_sid s Hinv) as Hinv'.
  pose proof (transcript_turns_returned xs call_sid s Hinv) as Ht.
  rewrite Hempty in Ht. cbn [app] in Ht.
  set (s1 := turns _ _ _ _ s) in *.
  destruct (wf_turn_context s1 call_sid (inv_wf _ Hinv')) as [c Hctx].
  rewrite (process_response_returned _ _ _ _ _ _ Hctx). cbn [fst ends_call].
  rewrite shouldEnd_turn_response.
  rewrite (turn_context_transcript _ _ _ (inv_wf _ Hinv') Hctx), Ht.
  rewrite !length_app, length_exchanges. cbn [length].
  destruct (Nat.leb_spec 4 (length xs)); apply Nat.leb_le || apply Nat.leb_gt; lia.
Qed.

(** X6.  A turn whose completion arrives registers the session (also one
    that was unknown), adds the candidate's entry and the interviewer's,
    and writes one in-progress record that carries the new transcript;
    the reply spoken is the completion's content, or the apology when the
    content is [None], in which case the entry stored still holds
    [None]. *)
Theorem returned_turn_is_recorded content now call_sid speech s :
  reachable WEBHOOK_BASE_URL twilio_configured json_loads openai_tts s →
  ∃ s' r,
    process_response WEBHOOK_BASE_URL openai_tts (CompletionContent content)
      now call_sid speech s
    = (Ok (turn_response WEBHOOK_BASE_URL call_sid (default apology content)
             (length (transcript s' call_sid))), s')
    ∧ is_Some (interview_contexts s' !! call_sid)
    ∧ transcript s' call_sid
      = transcript s call_sid
        ++ [Message user (Some speech); Message assistant content]
    ∧ log_writes s' = log_writes s ++ [r]
    ∧ log_call_sid r = call_sid
    ∧ log_status r = "in_progress"
    ∧ log_conversation r = transcript s' call_sid
    ∧ log_exchange_count r = length (transcript s' call_sid) / 2
    ∧ eval_calls s' = eval_calls s
    ∧ patches s' = patches s.
Proof.
  intros Hreach. pose proof (inv_wf _ (reachable_inv _ Hreach)) as Hwf.
  destruct (wf_turn_context s call_sid Hwf) as [c Hctx].
  pose proof (turn_context_transcript _ _ _ Hwf Hctx) as Ht0.
  pose proof (transcript_returned content now call_sid speech s Hwf) as Ht.
  rewrite (process_response_returned _ _ _ _ _ _ Hctx) in Ht |- *.
  cbn [snd] in Ht. unfold exchange in Ht.
  eexists _, _. split.
  { rewrite Ht, Ht0, <- app_assoc. reflexivity. }
  cbn [interview_contexts log_writes eval_calls patches].
  split_and!; try reflexivity.
  - rewrite lookup_insert_eq. by eexists.
  - exact Ht.
  - cbn [make_log_data log_conversation conversation set_conversation default
           from_option id]. rewrite Ht, Ht0, <- app_assoc. reflexivity.
  - cbn [make_log_data log_exchange_count conversation set_conversation default
           from_option id]. rewrite Ht, Ht0, <- app_assoc. reflexivity.
Qed.

Lemma session_alloc s s' c k r :
  wf s →
  heap s' = heap s ++ [c] →
  interview_contexts s' !! k = r →
  (r = interview_contexts s !! k) →
  session s' k = session s k.
Proof.
  intros Hwf Hh Hr ->. unfold session. rewrite Hh, Hr.
  destruct (interview_contexts s !! k) as [l|] eqn:Hl; [|done]. cbn.
  apply lookup_app_l. by eapply Hwf.
Qed.

(** X7.  When the credentials are configured and the call is created,
    [start_phone_interview] answers with the call identifier and leaves a
    session registered under it that holds the job description and the
    resume of the request and no transcript; the provisional key is gone
    (unless it is the identifier itself), the sessions of all other keys
    are untouched and nothing is logged. *)
Theorem start_phone_interview_registers sid request s :
  reachable WEBHOOK_BASE_URL twilio_configured json_loads openai_tts s →
  twilio_configured = true →
  ∃ s',
    start_phone_interview twilio_configured (CallCreated sid) request s
    = (Ok (sid, "calling"), s')
    ∧ session s' sid = Some {| jd := Some (req_jd request);
                               resume := Some (req_resume request);
                               conversation := None; evaluation := None |}
    ∧ transcript s' sid = []
    ∧ ("pending_" +:+ phone_number request ≠ sid →
       interview_contexts s' !! ("pending_" +:+ phone_number request) = None)
    ∧ (∀ k, k ≠ sid → k ≠ "pending_" +:+ phone_number request →
            interview_contexts s' !! k = interview_contexts s !! k
            ∧ session s' k = session s k)
    ∧ log_writes s' = log_writes s
    ∧ eval_calls s' = eval_calls s
    ∧ patches s' = patches s.
Proof.
  intros Hreach Hconf. pose proof (inv_wf _ (reachable_inv _ Hreach)) as Hwf.
  rewrite Hconf, start_phone_interview_created. eexists. split; [reflexivity|].
  assert (Hs : session
                 {| heap := heap s ++ [new_context request];
                    interview_contexts :=
                      <[sid := length (heap s)]>
                        (delete (temp_key request) (interview_contexts s));
                    log_writes := log_writes s; eval_calls := eval_calls s;
                    patches := patches s |} sid = Some (new_context request)).
  { unfold session. cbn. rewrite lookup_insert_eq. cbn. by apply list_lookup_middle. }
  split_and!; try reflexivity.
  - exact Hs.
  - unfold transcript. by rewrite Hs.
  - intros Hne. cbn. rewrite lookup_insert_ne by done. apply lookup_delete_eq.
  - intros k Hk1 Hk2.
    assert (Hr : <[sid := length (heap s)]>
                   (delete (temp_key request) (interview_contexts s)) !! k
                 = interview_contexts s !! k).
    { rewrite lookup_insert_ne by done. by apply lookup_delete_ne. }
    split; [exact Hr|]. by eapply session_alloc.
Qed.

(** X8.  [start_phone_interview] answers with a call identifier exactly
    when the credentials are configured and the call was created; in
    every other case it raises an HTTP 500 error, and without credentials
    it raises before anything is stored. *)
Theorem start_phone_interview_outcome twilio request s :
  ((∃ sid s', start_phone_interview twilio_configured twilio request s
              = (Ok (sid, "calling"), s'))
   ↔ twilio_configured = true ∧ ∃ sid, twilio = CallCreated sid)
  ∧ ((∃ detail s', start_phone_interview twilio_configured twilio request s
                   = (Raise (HTTPException 500 detail), s'))
     ↔ twilio_configured = false ∨ ∃ msg, twilio = CallRaises msg)
  ∧ (twilio_configured = false →
     start_phone_interview twilio_configured twilio request s
     = (Raise (HTTPException 500 "Twilio credentials not configured"), s)).
Proof.
  destruct twilio_configured.
  - destruct twilio as [msg|sid].
    + rewrite start_phone_interview_raised. split_and!.
      * split; [intros (r & s' & Hrun); discriminate Hrun|].
        intros [_ [sid Hsid]]. discriminate Hsid.
      * split; [by eauto|]. intros _. by eexists _, _.
      * discriminate.
    + rewrite start_phone_interview_created. split_and!.
      * split; [by eauto|]. intros _. by eexists _, _.
      * split; [intros (d & s' & Hrun); discriminate Hrun|].
        intros [Hf|[msg Hmsg]]; discriminate.
      * discriminate.
  - rewrite start_phone_interview_unconfigured. split_and!.
    + split; [intros (r & s' & Hrun); discriminate Hrun|]. intros [Hf _]. discriminate Hf.
    + split; [by eauto|]. intros _. by eexists _, _.
    + done.
Qed.

(** X9.  Answering the call changes no session: [twilio_voice_webhook]
    returns in every state, leaves the registry, the log and the other
    traces as they are and every session with the transcript it had, and
    its response speaks the greeting, gathers the answer to the first
    question for [process_response] and does not hang up. *)
Theorem twilio_voice_webhook_changes_no_session call_sid s :
  reachable WEBHOOK_BASE_URL twilio_configured json_loads openai_tts s →
  ∃ s',
    twilio_voice_webhook WEBHOOK_BASE_URL openai_tts call_sid s
    = (Ok [ Say greeting_text;
            Gather (WEBHOOK_BASE_URL +:+ "/twilio/process-response/" +:+ call_sid)
              [ Say first_question ];
            Say "I didn't catch that. Let me try again.";
            Redirect (WEBHOOK_BASE_URL +:+ "/twilio/voice-webhook") ], s')
    ∧ interview_contexts s' = interview_contexts s
    ∧ (∀ k, session s' k = session s k ∧ transcript s' k = transcript s k)
    ∧ log_writes s' = log_writes s
    ∧ eval_calls s' = eval_calls s
    ∧ patches s' = patches s.
Proof.
  intros Hreach. pose proof (inv_wf _ (reachable_inv _ Hreach)) as Hwf.
  eexists. split; [reflexivity|]. split_and!; try reflexivity.
  intros k.
  assert (Hs : session (set_heap (heap s ++ [ {| jd := Some ""; resume := Some "";
                                                 conversation := None;
                                                 evaluation := None |} ]) s) k
               = session s k) by by eapply session_alloc.
  split; [exact Hs|]. unfold transcript. by rewrite Hs.
Qed.

Lemma turn_response_plays_nothing call_sid ai_response n :
  existsb plays_audio (turn_response WEBHOOK_BASE_URL call_sid ai_response n) = false.
Proof. unfold turn_response. by destruct (10 <=? n). Qed.

(** X10.  With speech synthesis switched off no response refers to an
    audio file: whatever the synthesis backend would answer, the responses
    of [process_response] and of [twilio_voice_webhook] contain no [Play]
    verb, at top level or inside a [Gather]. *)
Theorem responses_play_no_audio gen now call_sid speech s :
  reachable WEBHOOK_BASE_URL twilio_configured json_loads openai_tts s →
  (∃ response s',
     process_response WEBHOOK_BASE_URL openai_tts gen now call_sid speech s
     = (Ok response, s')
     ∧ existsb plays_audio response = false)
  ∧ (∃ response s',
       twilio_voice_webhook WEBHOOK_BASE_URL openai_tts call_sid s = (Ok response, s')
       ∧ existsb plays_audio response = false).
Proof.
  intros Hreach. pose proof (inv_wf _ (reachable_inv _ Hreach)) as Hwf.
  destruct (wf_turn_context s call_sid Hwf) as [c Hctx]. split.
  - destruct gen as [msg|content].
    + rewrite (process_response_raised _ _ _ _ _ _ Hctx). eexists _, _.
      split; [reflexivity|]. apply turn_response_plays_nothing.
    + rewrite (process_response_returned _ _ _ _ _ _ Hctx). eexists _, _.
      split; [reflexivity|]. apply turn_response_plays_nothing.
  - eexists _, _. split; reflexivity.
Qed.

(** after a terminal status the call is not registered *)
Lemma status_terminal_unregisters ev now_patch now_log call_sid call_status s :
  inv s → terminal call_status = true →
  interview_contexts
    (twilio_status_callback json_loads ev now_patch now_log call_sid call_status s).2
  !! call_sid = None.
Proof.
  intros Hinv Hst.
  destruct (interview_contexts s !! call_sid) as [l|] eqn:Hl;
    [|by rewrite status_absent].
  destruct (proj1 Hinv _ _ Hl) as (c & Hc & He). unfold terminal in Hst.
  destruct (String.eqb call_status "completed") eqn:Hcompleted.
  - apply String.eqb_eq in Hcompleted as ->.
    destruct (le_lt_dec 2 (length (default [] (conversation c)))) as [Hlen|Hlen].
    + rewrite (status_completed_evaluated _ _ _ _ _ _ _ Hl Hc Hlen).
      apply lookup_delete_eq.
    + rewrite (status_completed_short _ _ _ _ _ _ _ Hl Hc Hlen).
      apply lookup_delete_eq.
  - cbn in Hst. rewrite (status_not_completed _ _ _ _ _ _ _ _ Hl Hc Hst).
    apply lookup_delete_eq.
Qed.


(** X12.  A registered call that failed, was busy or was not answered is
    finalised without evaluation: one record with that status, the
    transcript and a null evaluation is written, the session is removed,
    [evaluate_interview] is not called and no PATCH request is sent. *)
Theorem unanswered_call_is_logged_unevaluated ev now_patch now_log call_sid
    call_status s :
  reachable WEBHOOK_BASE_URL twilio_configured json_loads openai_tts s →
  is_Some (interview_contexts s !! call_sid) →
  call_status ∈ ["failed"; "busy"; "no-answer"] →
  ∃ s' r,
    twilio_status_callback json_loads ev now_patch now_log call_sid call_status s
    = (Ok "ok", s')
    ∧ log_writes s' = log_writes s ++ [r]
    ∧ log_call_sid r = call_sid
    ∧ log_status r = call_status
    ∧ log_conversation r = transcript s call_sid
    ∧ log_evaluation r = JNull
    ∧ interview_contexts s' = delete call_sid (interview_contexts s)
    ∧ heap s' = heap s
    ∧ eval_calls s' = eval_calls s
    ∧ patches s' = patches s.
Proof.
  intros Hreach [l Hl] Hst. pose proof (reachable_inv _ Hreach) as Hinv.
  destruct (proj1 Hinv _ _ Hl) as (c & Hc & He).
  assert (Hterm : terminal_without_evaluation call_status = true)
    by by apply bool_decide_eq_true.
  rewrite (status_not_completed _ _ _ _ _ _ _ _ Hl Hc Hterm).
  eexists _, _. split; [reflexivity|].
  cbn [log_writes set_interview_contexts set_log_writes make_log_data log_call_sid
         log_status log_conversation log_evaluation interview_contexts heap
         eval_calls patches].
  split_and!; try reflexivity.
  - by rewrite (transcript_registered _ _ _ _ Hl Hc).
  - cbn [make_log_data log_evaluation]. by rewrite He.
Qed.

(** X13.  A registered call that completes with at least one full
    exchange is evaluated once: the value [evaluate_interview] returns is
    stored in the record written with the transcript, the session is
    removed, and a PATCH request is sent exactly when that value is a JSON
    object, with status ["accepted"] if its decision is the string
    ["ACCEPT"] and ["rejected"] otherwise. *)
Theorem completed_call_is_evaluated ev now_patch now_log call_sid l s :
  reachable WEBHOOK_BASE_URL twilio_configured json_loads openai_tts s →
  interview_contexts s !! call_sid = Some l →
  2 ≤ length (transcript s call_sid) →
  ∃ s' r v,
    twilio_status_callback json_loads ev now_patch now_log call_sid "completed" s
    = (Ok "ok", s')
    ∧ (evaluate_interview json_loads ev call_sid l s).1 = Ok v
    ∧ log_writes s' = log_writes s ++ [r]
    ∧ log_status r = "completed"
    ∧ log_conversation r = transcript s call_sid
    ∧ log_evaluation r = v
    ∧ eval_calls s' = eval_calls s ++ [call_sid]
    ∧ interview_contexts s' = delete call_sid (interview_contexts s)
    ∧ patches s'
      = patches s
        ++ match v with
           | JObj fields =>
               [ {| patch_call_sid := call_sid;
                    patch_status :=
                      if is_accept (assoc_get "decision" fields)
                      then "accepted" else "rejected";
                    patch_evaluation := v;
                    patch_interviewedAt := isoformat now_patch |} ]
           | _ => []
           end.
Proof.
  intros Hreach Hl Hlen. pose proof (reachable_inv _ Hreach) as Hinv.
  destruct (proj1 Hinv _ _ Hl) as (c & Hc & He).
  rewrite (transcript_registered _ _ _ _ Hl Hc) in Hlen |- *.
  rewrite (status_completed_evaluated _ _ _ _ _ _ _ Hl Hc Hlen).
  rewrite (evaluate_interview_run _ _ _ _ _ Hc).
  eexists _, _, _. split; [reflexivity|]. split; [reflexivity|].
  cbn [log_writes make_log_data log_status log_conversation log_evaluation
         interview_contexts eval_calls patches].
  split_and!; reflexivity.
Qed.

(** X14.  When the evaluation of a completed call fails, the fallback
    with decision PENDING is what is logged, and what is reported to the
    frontend is the status ["rejected"]: every decision other than ACCEPT
    counts as a rejection. *)
Theorem failed_evaluation_is_reported_rejected ev now_patch now_log call_sid s :
  reachable WEBHOOK_BASE_URL twilio_configured json_loads openai_tts s →
  is_Some (interview_contexts s !! call_sid) →
  2 ≤ length (transcript s call_sid) →
  evaluation_failed json_loads ev = true →
  ∃ s' r p,
    twilio_status_callback json_loads ev now_patch now_log call_sid "completed" s
    = (Ok "ok", s')
    ∧ log_writes s' = log_writes s ++ [r]
    ∧ log_evaluation r = fallback_evaluation
    ∧ reported_decision (log_evaluation r) = Some (JStr "PENDING")
    ∧ patches s' = patches s ++ [p]
    ∧ patch_call_sid p = call_sid
    ∧ patch_status p = "rejected"
    ∧ patch_evaluation p = fallback_evaluation.
Proof.
  intros Hreach [l Hl] Hlen Hfail. pose proof (reachable_inv _ Hreach) as Hinv.
  destruct (proj1 Hinv _ _ Hl) as (c & Hc & He).
  rewrite (transcript_registered _ _ _ _ Hl Hc) in Hlen.
  rewrite (status_completed_evaluated _ _ _ _ _ _ _ Hl Hc Hlen).
  rewrite (evaluation_failed_value _ Hfail).
  eexists _, _, _. split; [reflexivity|].
  cbn [log_writes make_log_data log_evaluation patches].
  split_and!; reflexivity.
Qed.

(** *** The log routes *)

Lemma length_append s t : String.length (s +:+ t) = String.length s + String.length t.
Proof.
  induction s as [|c s IH]; [done|].
  rewrite append_cons. cbn [String.length]. by rewrite IH.
Qed.

Lemma append_inj_r t a b : a +:+ t = b +:+ t → a = b.
Proof.
  revert b. induction a as [|c a IH]; intros [|d b] H.
  - done.
  - apply (f_equal String.length) in H. rewrite !length_append in H. cbn in H. lia.
  - apply (f_equal String.length) in H. rewrite !length_append in H. cbn in H. lia.
  - injection H as -> H. f_equal. by apply IH.
Qed.

Lemma log_file_name_inj a b : log_file_name a = log_file_name b → a = b.
Proof.
  unfold log_file_name. intros H. apply (inj (String.app "interview_")) in H.
  by apply append_inj_r in H.
Qed.

Lemma logs_dir_snoc writes r :
  logs_dir (writes ++ [r])
  = <[log_file_name (log_call_sid r) := r]> (logs_dir writes).
Proof. unfold logs_dir. by rewrite foldl_snoc. Qed.

(** every file holds a record of the call it is named after *)
Lemma logs_dir_key writes k r :
  logs_dir writes !! k = Some r → k = log_file_name (log_call_sid r).
Proof.
  revert k r. induction writes as [|w writes IH] using rev_ind; intros k r.
  - unfold logs_dir. cbn. by rewrite lookup_empty.
  - rewrite logs_dir_snoc, lookup_insert. case_decide as Hk.
    + by intros [= <-].
    + apply IH.
Qed.

Lemma logs_dir_lookup writes call_sid :
  logs_dir writes !! log_file_name call_sid
  = last (filter (λ r, log_call_sid r = call_sid) writes).
Proof.
  induction writes as [|w writes IH] using rev_ind.
  - unfold logs_dir. cbn. by rewrite lookup_empty.
  - rewrite logs_dir_snoc, filter_app, lookup_insert.
    rewrite filter_cons, filter_nil. case_decide as Hk.
    + apply log_file_name_inj in Hk. rewrite decide_True by done.
      by rewrite last_snoc.
    + rewrite decide_False by by intros <-. by rewrite app_nil_r.
Qed.

(** X15.  [get_log] reads the last record written for the call: it
    returns a record exactly when that record is the most recent one the
    log holds for this call identifier, and it fails with 404 exactly
    when no record was ever written for it.  It never changes the
    state. *)
Theorem get_log_reads_last_write call_sid s :
  (∀ r, get_log call_sid s = (Ok r, s)
        ↔ last (filter (λ r, log_call_sid r = call_sid) (log_writes s)) = Some r)
  ∧ (get_log call_sid s = (Raise (HTTPException 404 "Log not found"), s)
     ↔ ∀ r, r ∈ log_writes s → log_call_sid r ≠ call_sid)
  ∧ (get_log call_sid s).2 = s.
Proof.
  unfold get_log. rewrite logs_dir_lookup.
  destruct (last (filter (λ r, log_call_sid r = call_sid) (log_writes s)))
    as [r0|] eqn:Hlast.
  - split_and!; [|split|done].
    + intros r. split; congruence.
    + discriminate.
    + intros Hnone. apply last_Some in Hlast as [l' Hl'].
      assert (Hin : r0 ∈ filter (λ r, log_call_sid r = call_sid) (log_writes s)).
      { rewrite Hl'. apply elem_of_app. right. by apply list_elem_of_singleton. }
      apply list_elem_of_filter in Hin as [Hsid Hin]. by destruct (Hnone r0 Hin).
  - split_and!; [|split|done].
    + intros r. split; [discriminate|congruence].
    + intros _ r Hin Hsid. apply last_None in Hlast.
      assert (Hf : r ∈ filter (λ r, log_call_sid r = call_sid) (log_writes s))
        by by apply list_elem_of_filter.
      rewrite Hlast in Hf. by apply not_elem_of_nil in Hf.
    + done.
Qed.

Lemma get_log_snoc call_sid r s s' :
  log_writes s' = log_writes s ++ [r] →
  get_log call_sid s'
  = if decide (log_call_sid r = call_sid) then (Ok r, s')
    else ((get_log call_sid s).1, s').
Proof.
  intros Hw. unfold get_log. rewrite Hw, logs_dir_snoc, lookup_insert.
  case_decide as Hk.
  - apply log_file_name_inj in Hk. by rewrite decide_True.
  - rewrite decide_False by by intros <-.
    by destruct (logs_dir (log_writes s) !! log_file_name call_sid).
Qed.

(** X16.  What [save_conversation_log] writes is what [get_log] reads
    back for that call, and the record of every other call reads as
    before. *)
Theorem get_log_after_save now call_sid l status c s :
  heap s !! l = Some c →
  get_log call_sid (save_conversation_log now call_sid l status s).2
  = (Ok (make_log_data now call_sid c status),
     (save_conversation_log now call_sid l status s).2)
  ∧ (∀ other, other ≠ call_sid →
       (get_log other (save_conversation_log now call_sid l status s).2).1
       = (get_log other s).1).
Proof.
  intros Hc. rewrite (save_conversation_log_run _ _ _ _ _ _ Hc). cbn [snd]. split.
  - erewrite get_log_snoc by reflexivity. by rewrite decide_True.
  - intros other Hne. erewrite get_log_snoc by reflexivity.
    by rewrite decide_False by by intros <-.
Qed.

(** what a terminal status writes for a registered call *)
Lemma finalisation_record ev now_patch now_log call_sid call_status s :
  inv s →
  is_Some (interview_contexts s !! call_sid) →
  terminal call_status = true →
  ∃ s' r,
    twilio_status_callback json_loads ev now_patch now_log call_sid call_status s
    = (Ok "ok", s')
    ∧ log_writes s' = log_writes s ++ [r]
    ∧ log_call_sid r = call_sid
    ∧ log_status r = call_status
    ∧ log_conversation r = transcript s call_sid.
Proof.
  intros Hinv [l Hl] Hst. destruct (proj1 Hinv _ _ Hl) as (c & Hc & He).
  rewrite (transcript_registered _ _ _ _ Hl Hc). unfold terminal in Hst.
  destruct (String.eqb call_status "completed") eqn:Hcompleted.
  - apply String.eqb_eq in Hcompleted as ->.
    destruct (le_lt_dec 2 (length (default [] (conversation c)))) as [Hlen|Hlen].
    + rewrite (status_completed_evaluated _ _ _ _ _ _ _ Hl Hc Hlen).
      eexists _, _. split; [reflexivity|]. by cbn.
    + rewrite (status_completed_short _ _ _ _ _ _ _ Hl Hc Hlen).
      eexists _, _. split; [reflexivity|]. by cbn.
  - cbn in Hst. rewrite (status_not_completed _ _ _ _ _ _ _ _ Hl Hc Hst).
    eexists _, _. split; [reflexivity|]. by cbn.
Qed.

(** X17.  After a registered call has been finalised by a terminal
    status, [get_log] for that call returns the final record: it carries
    the terminal status and the transcript the session had, although the
    session itself is gone. *)
Theorem get_log_after_finalisation ev now_patch now_log call_sid call_status s :
  reachable WEBHOOK_BASE_URL twilio_configured json_loads openai_tts s →
  is_Some (interview_contexts s !! call_sid) →
  terminal call_status = true →
  ∃ s' r,
    twilio_status_callback json_loads ev now_patch now_log call_sid call_status s
    = (Ok "ok", s')
    ∧ get_log call_sid s' = (Ok r, s')
    ∧ log_call_sid r = call_sid
    ∧ log_status r = call_status
    ∧ log_conversation r = transcript s call_sid
    ∧ session s' call_sid = None.
Proof.
  intros Hreach Hreg Hst. pose proof (reachable_inv _ Hreach) as Hinv.
  destruct (finalisation_record ev now_patch now_log call_sid call_status s
              Hinv Hreg Hst) as (s' & r & Hrun & Hw & Hsid & Hstatus & Hconv).
  exists s', r. split_and!; try done.
  - rewrite (get_log_snoc _ _ _ _ Hw). by rewrite decide_True.
  - pose proof (status_terminal_unregisters ev now_patch now_log call_sid
                  call_status s Hinv Hst) as Hgone.
    rewrite Hrun in Hgone. cbn [snd] in Hgone. unfold session. by rewrite Hgone.
Qed.

Lemma insert_by_timestamp_perm x l : insert_by_timestamp x l ≡ₚ x :: l.
Proof.
  induction l as [|y ys IH]; [done|]. cbn.
  destruct (String.ltb (sum_timestamp x) (sum_timestamp y)); [|done].
  rewrite IH. apply Permutation_swap.
Qed.

Lemma sorted_newest_first_perm l : sorted_newest_first l ≡ₚ l.
Proof.
  induction l as [|x l IH]; [done|]. cbn.
  by rewrite insert_by_timestamp_perm, IH.
Qed.

Lemma ltb_not_older x y :
  String.ltb (sum_timestamp x) (sum_timestamp y) = true → not_older y x.
Proof.
  unfold not_older, String.le, String.ltb, String.leb.
  by destruct (String.compare (sum_timestamp x) (sum_timestamp y)).
Qed.

Lemma not_ltb_not_older x y :
  String.ltb (sum_timestamp x) (sum_timestamp y) = false → not_older x y.
Proof.
  unfold not_older, String.le, String.ltb, String.leb.
  rewrite (String.compare_antisym (sum_timestamp y)).
  by destruct (String.compare (sum_timestamp x) (sum_timestamp y)).
Qed.

Lemma not_older_trans a b c : not_older a b → not_older b c → not_older a c.
Proof. unfold not_older. intros Hab Hbc. by etrans. Qed.

Lemma insert_by_timestamp_sorted x l :
  StronglySorted not_older l → StronglySorted not_older (insert_by_timestamp x l).
Proof.
  induction 1 as [|y ys Hsorted IH Hall]; cbn.
  - by repeat constructor.
  - destruct (String.ltb (sum_timestamp x) (sum_timestamp y)) eqn:Hlt.
    + constructor; [done|]. rewrite insert_by_timestamp_perm.
      constructor; [by apply ltb_not_older|done].
    + apply not_ltb_not_older in Hlt. constructor; [by constructor|].
      constructor; [done|]. eapply Forall_impl; [exact Hall|].
      intros z Hz. by eapply not_older_trans.
Qed.

Lemma sorted_newest_first_sorted l : StronglySorted not_older (sorted_newest_first l).
Proof.
  induction l as [|x l IH]; cbn; [constructor|]. by apply insert_by_timestamp_sorted.
Qed.

(** X18.  [list_logs] returns one summary for each call that has a log
    file and no other entry: the summaries are those of the records
    [get_log] returns, no call identifier occurs twice, and the list is
    ordered by timestamp, every entry being followed only by entries whose
    timestamp is not greater.  It never changes the state. *)
Theorem list_logs_sorted_one_per_call s :
  ∃ out,
    list_logs s = (Ok out, s)
    ∧ StronglySorted not_older out
    ∧ NoDup (sum_call_sid <$> out)
    ∧ ∀ x, x ∈ out ↔ ∃ r, get_log (sum_call_sid x) s = (Ok r, s) ∧ x = summarize r.
Proof.
  eexists. split; [reflexivity|].
  set (dir := logs_dir (log_writes s)).
  split; [apply sorted_newest_first_sorted|]. split.
  - rewrite sorted_newest_first_perm. rewrite <- list_fmap_compose.
    apply (NoDup_fmap_1 log_file_name). rewrite <- list_fmap_compose.
    assert (Heq : (log_file_name ∘ (sum_call_sid ∘ summarize)) <$> (map_to_list dir).*2
                  = (map_to_list dir).*1).
    { rewrite <- list_fmap_compose. apply list_fmap_ext.
      intros i [k r] Hin. cbn. symmetry. eapply logs_dir_key.
      apply elem_of_map_to_list. eapply list_elem_of_lookup_2. exact Hin. }
    rewrite Heq. apply NoDup_fst_map_to_list.
  - intros x. rewrite sorted_newest_first_perm. rewrite list_elem_of_fmap.
    unfold get_log. fold dir. split.
    + intros (r & -> & Hr). apply list_elem_of_fmap in Hr as ([k r'] & -> & Hin).
      apply elem_of_map_to_list in Hin. pose proof (logs_dir_key _ _ _ Hin) as ->.
      exists r'. cbn. by rewrite Hin.
    + intros (r & Hr & ->).
      destruct (dir !! log_file_name (sum_call_sid (summarize r))) as [r'|] eqn:Hd;
        [|discriminate Hr].
      injection Hr as ->. exists r. split; [done|].
      apply list_elem_of_fmap. exists (log_file_name (log_call_sid r), r).
      split; [done|]. by apply elem_of_map_to_list.
Qed.

(** *** Timestamps compare as the times they stand for *)

Lemma ascii_compare_digit m n :
  Ascii.compare (digit m) (digit n) = (m `mod` 10 ?= n `mod` 10).
Proof.
  unfold Ascii.compare.
  rewrite <- (N2Nat.id (N_of_ascii (digit m))), <- (N2Nat.id (N_of_ascii (digit n))).
  fold (nat_of_ascii (digit m)). fold (nat_of_ascii (digit n)).
  rewrite !digit_code, <- Nat2N.inj_compare.
  destruct (Nat.compare_spec (m `mod` 10) (n `mod` 10));
    [apply Nat.compare_eq_iff|apply Nat.compare_lt_iff|apply Nat.compare_gt_iff]; lia.
Qed.

Lemma compare_cons c1 c2 s1 s2 :
  String.compare (String c1 s1) (String c2 s2)
  = lex (Ascii.compare c1 c2) (String.compare s1 s2).
Proof. cbn. by destruct (Ascii.compare c1 c2). Qed.

Lemma ascii_compare_refl c : Ascii.compare c c = Eq.
Proof. unfold Ascii.compare. apply N.compare_refl. Qed.

Lemma lex_assoc x y z : lex (lex x y) z = lex x (lex y z).
Proof. by destruct x. Qed.

Lemma compare_positional p qa qb ra rb :
  ra < p → rb < p →
  (ra + p * qa ?= rb + p * qb) = lex (qa ?= qb) (ra ?= rb).
Proof.
  intros Ha Hb.
  destruct (Nat.compare_spec qa qb) as [->|Hq|Hq]; cbn.
  - destruct (Nat.compare_spec ra rb);
      [apply Nat.compare_eq_iff|apply Nat.compare_lt_iff|apply Nat.compare_gt_iff]; lia.
  - apply Nat.compare_lt_iff. nia.
  - apply Nat.compare_gt_iff. nia.
Qed.

Lemma compare_zero_pad w a b r1 r2 :
  String.compare (zero_pad w a +:+ r1) (zero_pad w b +:+ r2)
  = lex (a `mod` 10 ^ w ?= b `mod` 10 ^ w) (String.compare r1 r2).
Proof.
  induction w as [|w IH].
  - cbn [zero_pad]. by rewrite !Nat.mod_1_r.
  - cbn [zero_pad]. rewrite !append_cons, compare_cons, ascii_compare_digit, IH.
    rewrite <- lex_assoc. f_equal.
    rewrite (Nat.pow_succ_r' 10 w), (Nat.mul_comm 10 (10 ^ w)).
    rewrite !Nat.Div0.mod_mul_r. symmetry. apply compare_positional.
    + apply Nat.mod_upper_bound. by apply Nat.pow_nonzero.
    + apply Nat.mod_upper_bound. by apply Nat.pow_nonzero.
Qed.

Lemma compare_separator c r1 r2 :
  String.compare (String c "" +:+ r1) (String c "" +:+ r2) = String.compare r1 r2.
Proof. rewrite !append_cons, compare_cons, ascii_compare_refl. done. Qed.

Lemma compare_two_digits a b r1 r2 :
  a < 100 → b < 100 →
  String.compare (zero_pad 2 a +:+ r1) (zero_pad 2 b +:+ r2)
  = lex (a ?= b) (String.compare r1 r2).
Proof.
  intros Ha Hb. rewrite compare_zero_pad. change (10 ^ 2) with 100.
  by rewrite !Nat.mod_small.
Qed.

Lemma million : 10 ^ 6 = 1000 * 1000.
Proof.
  change 6 with (3 + 3). rewrite Nat.pow_add_r. by change (10 ^ 3) with 1000.
Qed.

Lemma compare_fraction a b :
  a < 1000 * 1000 → b < 1000 * 1000 →
  String.compare (if a =? 0 then "" else "." +:+ zero_pad 6 a)
                 (if b =? 0 then "" else "." +:+ zero_pad 6 b)
  = (a ?= b).
Proof.
  intros Ha Hb.
  destruct (Nat.eqb_spec a 0) as [->|Ha0]; destruct (Nat.eqb_spec b 0) as [->|Hb0].
  - done.
  - rewrite append_cons. cbn [String.compare]. symmetry. apply Nat.compare_lt_iff. lia.
  - rewrite append_cons. cbn [String.compare]. symmetry. apply Nat.compare_gt_iff. lia.
  - rewrite !append_cons, compare_cons, ascii_compare_refl. cbn [lex].
    change ("" +:+ zero_pad 6 a) with (zero_pad 6 a).
    change ("" +:+ zero_pad 6 b) with (zero_pad 6 b).
    rewrite <- (append_empty_r (zero_pad 6 a)), <- (append_empty_r (zero_pad 6 b)).
    rewrite compare_zero_pad, million, !Nat.mod_small by done.
    cbn [String.compare]. by destruct (a ?= b).
Qed.

(** X19.  The timestamps of the log are ordered as the times they were
    taken at: for two valid [datetime] values, comparing the two
    [isoformat] strings character by character gives the same answer as
    comparing the values field by field. *)
Theorem isoformat_order_is_chronological a b :
  valid a → valid b →
  String.compare (isoformat a) (isoformat b) = datetime_compare a b.
Proof.
  intros (Hy & Hmo & Hd & Hh & Hmi & Hs & Hus) (Hy' & Hmo' & Hd' & Hh' & Hmi' & Hs' & Hus').
  unfold isoformat, datetime_compare.
  rewrite compare_zero_pad.
  assert (H4 : 10 ^ 4 = 10 * 1000).
  { change 4 with (1 + 3). rewrite Nat.pow_add_r. by change (10 ^ 3) with 1000. }
  rewrite H4, !Nat.mod_small by lia. f_equal.
  do 5 (rewrite compare_separator, compare_two_digits by lia; f_equal).
  by apply compare_fraction.
Qed.

(** *** The code fences of [evaluate_interview] *)

Lemma append_assoc (a b c : string) : (a +:+ b) +:+ c = a +:+ (b +:+ c).
Proof. induction a as [|ch a IH]; [done|]. by rewrite !append_cons, IH. Qed.

Lemma rev_app_append a b : String.rev_app a b = String.rev a +:+ b.
Proof.
  unfold String.rev. revert b. induction a as [|ch a IH]; intros b; [done|].
  cbn [String.rev_app]. rewrite (IH (String ch b)), (IH (String ch "")).
  by rewrite append_assoc.
Qed.

Lemma rev_cons ch cur : String.rev (String ch cur) = String.rev cur +:+ String ch "".
Proof. unfold String.rev at 1. cbn [String.rev_app]. apply rev_app_append. Qed.

Lemma rev_cons_append ch cur s :
  String.rev (String ch cur) +:+ s = String.rev cur +:+ String ch s.
Proof. by rewrite rev_cons, append_assoc. Qed.

Lemma startswith_append sep rest : PyStr.startswith sep (sep +:+ rest) = true.
Proof.
  induction sep as [|ch sep IH]; [done|].
  rewrite append_cons. cbn [PyStr.startswith]. by rewrite Ascii.eqb_refl.
Qed.

Lemma contains_cons_false sep ch s :
  PyStr.contains sep (String ch s) = false →
  PyStr.startswith sep (String ch s) = false ∧ PyStr.contains sep s = false.
Proof.
  cbn [PyStr.contains]. by destruct (PyStr.startswith sep (String ch s)).
Qed.

(** a text without the first character of [sep] has no occurrence of [sep] *)
Lemma contains_first_char c0 sep' s :
  PyStr.contains (String c0 "") s = false →
  PyStr.contains (String c0 sep') s = false.
Proof.
  induction s as [|ch s IH]; [done|]. intros H.
  apply contains_cons_false in H as [Hs Hc]. cbn [PyStr.contains PyStr.startswith] in *.
  destruct (Ascii.eqb c0 ch).
  - by destruct s.
  - by apply IH.
Qed.

Lemma split_go_skip sep x cur rest :
  PyStr.split_go sep (String.length x) cur (x +:+ rest) = PyStr.split_go sep 0 cur rest.
Proof. induction x as [|ch x IH]; [done|]. rewrite append_cons. exact IH. Qed.

(** no occurrence: one piece *)
Lemma split_go_no_match sep cur s :
  PyStr.contains sep s = false →
  PyStr.split_go sep 0 cur s = [String.rev cur +:+ s].
Proof.
  revert cur. induction s as [|ch s IH]; intros cur H.
  - cbn. by rewrite append_empty_r.
  - apply contains_cons_false in H as [Hs Hc]. cbn [PyStr.split_go].
    rewrite Hs, (IH _ Hc). by rewrite rev_cons_append.
Qed.

(** the first occurrence ends the first piece *)
Lemma split_go_first c0 sep' pre rest cur :
  PyStr.contains (String c0 "") pre = false →
  PyStr.split_go (String c0 sep') 0 cur (pre +:+ String c0 sep' +:+ rest)
  = (String.rev cur +:+ pre) :: PyStr.split_go (String c0 sep') 0 "" rest.
Proof.
  revert cur. induction pre as [|ch pre IH]; intros cur H.
  - change ("" +:+ String c0 sep' +:+ rest) with (String c0 sep' +:+ rest).
    rewrite append_cons. cbn [PyStr.split_go].
    rewrite <- append_cons, startswith_append, append_empty_r. f_equal.
    replace (String.length (String c0 sep') - 1) with (String.length sep')
      by (cbn [String.length]; lia).
    apply split_go_skip.
  - apply contains_cons_false in H as [Hs Hc]. rewrite append_cons.
    cbn [PyStr.split_go].
    assert (PyStr.startswith (String c0 sep') (String ch (pre +:+ String c0 sep' +:+ rest))
            = false) as ->.
    { cbn [PyStr.startswith] in *. by destruct (Ascii.eqb c0 ch). }
    rewrite (IH _ Hc). by rewrite rev_cons_append.
Qed.

Lemma contains_append sep pre rest : PyStr.contains sep (pre +:+ sep +:+ rest) = true.
Proof.
  induction pre as [|ch pre IH].
  - change ("" +:+ sep +:+ rest) with (sep +:+ rest).
    destruct sep as [|c sep]; [by destruct rest|].
    rewrite append_cons. cbn [PyStr.contains].
    by rewrite <- append_cons, startswith_append.
  - rewrite append_cons. cbn [PyStr.contains]. rewrite IH.
    by destruct (PyStr.startswith sep _).
Qed.

(** X20.  An answer that, once stripped, consists of text without
    backticks, the fence [```json], a body without backticks, the closing
    fence and anything after it that opens no further [```json] fence, is
    unwrapped: what is handed to [json.loads] is the stripped body. *)
Theorem json_fence_is_unwrapped text pre body post :
  PyStr.strip text = pre +:+ "```json" +:+ body +:+ "```" +:+ post →
  PyStr.contains "`" pre = false →
  PyStr.contains "`" body = false →
  PyStr.contains "```json" (body +:+ "```" +:+ post) = false →
  fenced_payload text = PyStr.strip body.
Proof.
  intros Hstrip Hpre Hbody Hpost. unfold fenced_payload. cbv zeta.
  rewrite Hstrip, contains_append. unfold PyStr.split.
  rewrite (split_go_first "`" "``json" pre _ "" Hpre).
  rewrite (split_go_no_match _ _ _ Hpost).
  cbn [nth]. change (String.rev "" +:+ ?x) with x.
  by rewrite (split_go_first "`" "``" body _ "" Hbody).
Qed.

(** X21.  An answer without [```json] that, once stripped, consists of
    text without backticks, a fence [```], a body without backticks and a
    closing fence is unwrapped in the same way. *)
Theorem plain_fence_is_unwrapped text pre body post :
  PyStr.strip text = pre +:+ "```" +:+ body +:+ "```" +:+ post →
  PyStr.contains "`" pre = false →
  PyStr.contains "`" body = false →
  PyStr.contains "```json" (PyStr.strip text) = false →
  fenced_payload text = PyStr.strip body.
Proof.
  intros Hstrip Hpre Hbody Hjson. unfold fenced_payload. cbv zeta.
  rewrite Hjson. rewrite Hstrip, contains_append. unfold PyStr.split.
  rewrite (split_go_first "`" "``" pre _ "" Hpre).
  rewrite (split_go_first "`" "``" body _ "" Hbody).
  cbn [nth]. change (String.rev "" +:+ ?x) with x.
  rewrite (split_go_no_match "```" "" body (contains_first_char _ _ _ Hbody)).
  done.
Qed.

(** *** [save_conversation_log] and the session *)



(** *** [start_interview] *)

(** X23.  [start_interview] answers with a room URL exactly when it has
    made the two Daily requests and then started one bot process for that
    room; a process is started only after both requests were answered
    with status 200 and carried the room URL and the token as strings, and
    its command line passes the URL, the token, the job description and
    the resume of the request.  Without an API key nothing is requested,
    and the token request is sent only for a room that was created. *)
Theorem start_interview_spawns_after_both_requests key rooms tokens popen_ok request :
  (∀ url,
     (start_interview key rooms tokens popen_ok request).1 = Started url
     ↔ ∃ name bot_token,
         (start_interview key rooms tokens popen_ok request).2
         = [ PostRooms; PostMeetingTokens name;
             Popen [ "python"; "bot_runner.py"; "-u"; url; "-t"; bot_token;
                     "--jd"; web_jd request; "--resume"; web_resume request ] ])
  ∧ (∀ cmd,
       Popen cmd ∈ (start_interview key rooms tokens popen_ok request).2 →
       ∃ url bot_token text1 text2 room_data token_data,
         rooms = HttpReplies 200 text1 room_data
         ∧ json_item room_data "url" = Some (JStr url)
         ∧ tokens = HttpReplies 200 text2 token_data
         ∧ json_item token_data "token" = Some (JStr bot_token)
         ∧ cmd = bot_command url bot_token request)
  ∧ (∀ name,
       PostMeetingTokens name ∈ (start_interview key rooms tokens popen_ok request).2 →
       ∃ text room_data,
         rooms = HttpReplies 200 text room_data
         ∧ json_item room_data "name" = Some name)
  ∧ (key = None ∨ key = Some "" →
     start_interview key rooms tokens popen_ok request
     = (Refused "DAILY_API_KEY not configured", [])).
Proof.
  unfold start_interview, bot_command. split_and!.
  - intros url. repeat case_match; cbn; split;
      try (intros [= <-]); try (intros (? & ? & [= <- <-])); try discriminate;
      try (intros (? & ? & ?); discriminate); eauto.
  - intros cmd. repeat case_match; cbn; intros Hin;
      repeat (apply elem_of_cons in Hin as [Hin|Hin]; try discriminate Hin);
      try (by apply not_elem_of_nil in Hin).
    injection Hin as ->.
    match goal with H : negb (_ =? 200) = false |- _ =>
      apply negb_false_iff, Nat.eqb_eq in H end.
    match goal with H : negb (_ =? 200) = false |- _ =>
      apply negb_false_iff, Nat.eqb_eq in H end.
    subst. by eexists _, _, _, _, _, _.
  - intros name. repeat case_match; cbn; intros Hin;
      repeat (apply elem_of_cons in Hin as [Hin|Hin]; try discriminate Hin);
      try (by apply not_elem_of_nil in Hin);
      injection Hin as ->;
      repeat match goal with H : negb (_ =? 200) = false |- _ =>
        apply negb_false_iff, Nat.eqb_eq in H end;
      subst; by eexists _, _.
  - by intros [->| ->].
Qed.

(** *** Calls that are not registered, and whole interviews *)

(** X24.  A turn for a call that is not registered, because it was never
    started or has been finalised already, works on a new session with an
    empty job description and resume: when the completion arrives that
    session is registered with the one exchange, and when it fails
    nothing is kept. *)
Theorem unregistered_call_starts_empty_session content msg now call_sid speech s :
  reachable WEBHOOK_BASE_URL twilio_configured json_loads openai_tts s →
  interview_contexts s !! call_sid = None →
  session (process_response WEBHOOK_BASE_URL openai_tts (CompletionContent content)
             now call_sid speech s).2 call_sid
  = Some {| jd := Some ""; resume := Some "";
            conversation := Some [Message user (Some speech);
                                  Message assistant content];
            evaluation := None |}
  ∧ session (process_response WEBHOOK_BASE_URL openai_tts (CompletionRaises msg)
               now call_sid speech s).2 call_sid
    = None.
Proof.
  intros Hreach Hl. destruct (turn_context_unregistered _ _ Hl) as [Hloc Hctx]. split.
  - rewrite (process_response_returned _ _ _ _ _ _ Hctx), Hloc. unfold session. cbn.
    rewrite lookup_insert_eq. cbn. rewrite insert_snoc. by apply list_lookup_middle.
  - rewrite (process_response_raised _ _ _ _ _ _ Hctx). unfold session. cbn.
    by rewrite Hl.
Qed.

Lemma turns_keep_registered inputs call_sid s :
  inv s → is_Some (interview_contexts s !! call_sid) →
  is_Some (interview_contexts (turns WEBHOOK_BASE_URL openai_tts inputs call_sid s)
           !! call_sid).
Proof.
  revert s. induction inputs as [|[[gen now] speech] rest IH]; intros s Hinv Hreg; [done|].
  cbn [turns]. apply IH; [by apply inv_process_response|].
  apply process_response_keeps_registered; [by apply inv_wf|done].
Qed.

(** X25.  A whole interview: for a registered call with an empty
    transcript, after at least one turn whose completions all arrive and
    the status ["completed"], [get_log] returns a record with that
    status, the exchanges in the order they took place, their number as
    exchange count and the value [evaluate_interview] returned, and the
    session is gone. *)
Theorem completed_interview_is_logged s call_sid
    (xs : list (option string * datetime * string)) ev now_patch now_log :
  reachable WEBHOOK_BASE_URL twilio_configured json_loads openai_tts s →
  is_Some (interview_contexts s !! call_sid) →
  transcript s call_sid = [] →
  xs ≠ [] →
  ∃ l s' r v,
    interview_contexts (turns WEBHOOK_BASE_URL openai_tts (returned <$> xs) call_sid s)
      !! call_sid = Some l
    ∧ (evaluate_interview json_loads ev call_sid l
         (turns WEBHOOK_BASE_URL openai_tts (returned <$> xs) call_sid s)).1 = Ok v
    ∧ twilio_status_callback json_loads ev now_patch now_log call_sid "completed"
        (turns WEBHOOK_BASE_URL openai_tts (returned <$> xs) call_sid s)
      = (Ok "ok", s')
    ∧ get_log call_sid s' = (Ok r, s')
    ∧ log_status r = "completed"
    ∧ log_conversation r = flat_map (λ x, exchange x.2 x.1.1) xs
    ∧ log_exchange_count r = length xs
    ∧ log_evaluation r = v
    ∧ session s' call_sid = None.
Proof.
  intros Hreach Hreg Hempty Hxs. pose proof (reachable_inv _ Hreach) as Hinv.
  pose proof (inv_turns (returned <$> xs) call_sid s Hinv) as Hinv'.
  pose proof (transcript_turns_returned xs call_sid s Hinv) as Ht.
  rewrite Hempty in Ht. cbn [app] in Ht.
  destruct (turns_keep_registered (returned <$> xs) call_sid s Hinv Hreg) as [l Hl].
  set (s1 := turns _ _ _ _ s) in *.
  destruct (proj1 Hinv' _ _ Hl) as (c & Hc & He).
  rewrite (transcript_registered _ _ _ _ Hl Hc) in Ht.
  assert (Hlen : 2 ≤ length (default [] (conversation c))).
  { rewrite Ht, length_exchanges. destruct xs; [done|cbn; lia]. }
  exists l. rewrite (status_completed_evaluated _ _ _ _ _ _ _ Hl Hc Hlen).
  rewrite (evaluate_interview_run _ _ _ _ _ Hc).
  eexists _, _, _. split; [done|]. split; [reflexivity|]. split; [reflexivity|].
  split.
  { erewrite get_log_snoc by reflexivity. by rewrite decide_True. }
  cbn [make_log_data log_status log_conversation log_exchange_count log_evaluation
         conversation set_evaluation evaluation default from_option id].
  split_and!; try done.
  - rewrite Ht, length_exchanges. by rewrite Nat.mul_comm, Nat.div_mul.
  - unfold session. cbn. by rewrite lookup_delete_eq.
Qed.

End Properties.

(** ** The model at work: concrete runs *)

Lemma sample_session_started :
  (start_phone_interview true (CallCreated "CA1") sample_request init).2 = sample_session.
Proof. vm_compute. reflexivity. Qed.

Lemma sample_session_reachable :
  reachable sample_url true sample_loads sample_tts sample_session.
Proof.
  unfold reachable. eapply rtc_r; [apply rtc_refl|].
  rewrite <- sample_session_started. apply step_start_phone_interview.
Qed.

Example split_on_fence :
  PyStr.split "```" "a```b```c" = ["a"; "b"; "c"]
  ∧ PyStr.split "ab" "xabab" = ["x"; ""; ""]
  ∧ PyStr.split "aa" "aaa" = [""; "a"]
  ∧ PyStr.strip "  a b  " = "a b".
Proof. vm_compute. done. Qed.

Example fenced_payload_of_sample :
  fenced_payload sample_completion_text = sample_evaluation_text
  ∧ fenced_payload sample_evaluation_text = sample_evaluation_text.
Proof. vm_compute. done. Qed.

Example isoformat_of_sample :
  isoformat sample_now = "2026-11-03T09:05:00.000012"
  ∧ is_iso8601 "2026-11-03T09:05:00" = true
  ∧ is_iso8601 "2026-13-03T09:05:00" = false
  ∧ is_iso8601 "03/11/2026 09:05" = false.
Proof. vm_compute. done. Qed.

(** The scenario of the specification: the fifth exchange ends the call. *)
Example five_exchanges_end_the_call :
  let answers := [ (Some "Q2", sample_now, "I have 5 years building APIs");
                   (Some "Q3", sample_now, "A2"); (Some "Q4", sample_now, "A3");
                   (Some "Q5", sample_now, "A4") ] in
  let s := turns sample_url sample_tts (returned <$> answers) "CA1" sample_session in
  length (transcript s "CA1") = 8
  ∧ ends_call (process_response sample_url sample_tts
                 (CompletionContent (Some "Thanks.")) sample_now "CA1" "A5" s).1 = true.
Proof. vm_compute. done. Qed.


(** C4 as stated fails: after a turn whose completion request failed, the
    transcript holds no interviewer entry and no record has been written. *)
Lemma failed_turn_leaves_no_record :
  ¬ (∃ content,
       In (Message assistant content)
         (transcript (process_response sample_url sample_tts (CompletionRaises "timeout")
                        sample_now "CA1" "Hello" sample_session).2 "CA1"))
  ∧ ¬ (∃ r,
         log_writes (process_response sample_url sample_tts (CompletionRaises "timeout")
                       sample_now "CA1" "Hello" sample_session).2
         = log_writes sample_session ++ [r]).
Proof.
  split.
  - intros [content Hin]. vm_compute in Hin.
    destruct Hin as [Heq|[]]. discriminate Heq.
  - intros [r Hw]. vm_compute in Hw. discriminate Hw.
Qed.

(** C4 as amended, on the same turn. *)
Lemma failed_generation_turn_witness :
  reachable sample_url true sample_loads sample_tts sample_session
  ∧ ∃ s',
      process_response sample_url sample_tts (CompletionRaises "timeout")
        sample_now "CA1" "Hello" sample_session
      = (Ok (turn_response sample_url "CA1" apology
               (S (length (transcript sample_session "CA1")))), s')
      ∧ interview_contexts s' = interview_contexts sample_session
      ∧ log_writes s' = log_writes sample_session
      ∧ eval_calls s' = eval_calls sample_session
      ∧ patches s' = patches sample_session
      ∧ transcript s' "CA1"
        = match interview_contexts sample_session !! "CA1" with
          | Some _ => transcript sample_session "CA1" ++ [Message user (Some "Hello")]
          | None => []
          end.
Proof.
  split; [exact sample_session_reachable|].
  exact (failed_generation_turn sample_url true sample_loads sample_tts
           sample_session "timeout" sample_now "CA1" "Hello" sample_session_reachable).
Defined.

(** C5 as stated fails: once the call has been answered and the first
    utterance processed, the transcript does not begin with an interviewer
    entry. *)
Lemma transcript_starts_with_candidate :
  ¬ (alternates assistant
       (transcript
          (turns sample_url sample_tts
             [returned (Some "Tell me more.", sample_now, "I have 5 years building APIs")]
             "CA1" (twilio_voice_webhook sample_url sample_tts "CA1" sample_session).2)
          "CA1")
     = true).
Proof. vm_compute. discriminate. Qed.

(** C5 as amended, for two turns of a fresh session. *)
Lemma transcript_alternates_from_candidate_witness :
  reachable sample_url true sample_loads sample_tts sample_session
  ∧ transcript sample_session "CA1" = []
  ∧ 2 ≤ length [ (Some "Q2", sample_now, "A1"); (Some "Q3", sample_now, "A2") ]
  ∧ alternates user
      (transcript
         (turns sample_url sample_tts
            (returned <$> take 2 [ (Some "Q2", sample_now, "A1");
                                   (Some "Q3", sample_now, "A2") ])
            "CA1" sample_session) "CA1") = true
  ∧ length
      (transcript
         (turns sample_url sample_tts
            (returned <$> take 2 [ (Some "Q2", sample_now, "A1");
                                   (Some "Q3", sample_now, "A2") ])
            "CA1" sample_session) "CA1") = 2 * 2.
Proof.
  assert (Ht : transcript sample_session "CA1" = []) by (vm_compute; reflexivity).
  assert (Hk : 2 ≤ length [ (Some "Q2", sample_now, "A1"); (Some "Q3", sample_now, "A2") ])
    by (simpl; lia).
  split; [exact sample_session_reachable|]. split; [exact Ht|]. split; [exact Hk|].
  exact (transcript_alternates_from_candidate sample_url true sample_loads sample_tts
           sample_session "CA1" _ 2 sample_session_reachable Ht Hk).
Defined.

(** C6 as stated fails: the call identifier is already registered and the
    move does not fail. *)
Lemma rekey_overwrites_taken_key :
  ¬ (is_Some (interview_contexts sample_collision !! "CA1") →
     ∃ e s', rekey "pending_+15551234567" "CA1" sample_collision = (Raise e, s')).
Proof.
  intros Hclaim. destruct Hclaim as (e & s' & Hrun).
  - vm_compute. eauto.
  - apply (f_equal fst) in Hrun. vm_compute in Hrun. discriminate Hrun.
Qed.

(** C6 as amended, on the registry of the counterexample. *)
Lemma rekey_moves_session_witness :
  interview_contexts sample_collision !! "pending_+15551234567" = Some 1
  ∧ ∃ s', rekey "pending_+15551234567" "CA1" sample_collision = (Ok tt, s')
      ∧ heap s' = heap sample_collision
      ∧ interview_contexts s' !! "CA1" = Some 1
      ∧ session s' "CA1" = session sample_collision "pending_+15551234567"
      ∧ ("pending_+15551234567" ≠ "CA1" →
         interview_contexts s' !! "pending_+15551234567" = None)
      ∧ (∀ k, k ≠ "pending_+15551234567" → k ≠ "CA1" →
           interview_contexts s' !! k = interview_contexts sample_collision !! k).
Proof.
  assert (Hl : interview_contexts sample_collision !! "pending_+15551234567" = Some 1)
    by (vm_compute; reflexivity).
  split; [exact Hl|].
  exact (proj1 (rekey_moves_session "pending_+15551234567" "CA1" sample_collision) 1 Hl).
Defined.

(** C7, for a call that completes twice. *)
Lemma finalize_idempotent_witness :
  reachable sample_url true sample_loads sample_tts sample_session
  ∧ is_Some (interview_contexts sample_session !! "CA1")
  ∧ terminal "completed" = true
  ∧ ∃ s1 r,
      twilio_status_callback sample_loads (CompletionRaises "down") sample_now sample_now
        "CA1" "completed" sample_session = (Ok "ok", s1)
      ∧ log_writes s1 = log_writes sample_session ++ [r]
      ∧ log_call_sid r = "CA1" ∧ log_status r = "completed"
      ∧ interview_contexts s1 !! "CA1" = None
      ∧ twilio_status_callback sample_loads (CompletionRaises "down") sample_now sample_now
          "CA1" "completed" s1 = (Ok "ok", s1).
Proof.
  assert (Hl : is_Some (interview_contexts sample_session !! "CA1"))
    by (vm_compute; eauto).
  assert (Ht : terminal "completed" = true) by reflexivity.
  split; [exact sample_session_reachable|]. split; [exact Hl|]. split; [exact Ht|].
  exact (finalize_idempotent sample_url true sample_loads sample_tts sample_session
           _ _ _ _ _ _ "CA1" "completed" "completed" sample_session_reachable Hl Ht).
Defined.

(** C8, for a session that never had a turn. *)
Lemma evaluation_iff_full_exchange_witness :
  reachable sample_url true sample_loads sample_tts sample_session
  ∧ is_Some (interview_contexts sample_session !! "CA1")
  ∧ ∃ s' r,
      twilio_status_callback sample_loads (CompletionRaises "down") sample_now sample_now
        "CA1" "completed" sample_session = (Ok "ok", s')
      ∧ log_writes s' = log_writes sample_session ++ [r]
      ∧ log_status r = "completed"
      ∧ log_conversation r = transcript sample_session "CA1"
      ∧ (eval_calls s' = eval_calls sample_session ++ ["CA1"]
         ↔ 2 ≤ length (transcript sample_session "CA1"))
      ∧ (length (transcript sample_session "CA1") < 2 →
         eval_calls s' = eval_calls sample_session ∧ log_evaluation r = JNull).
Proof.
  assert (Hl : is_Some (interview_contexts sample_session !! "CA1"))
    by (vm_compute; eauto).
  split; [exact sample_session_reachable|]. split; [exact Hl|].
  exact (evaluation_iff_full_exchange sample_url true sample_loads sample_tts
           sample_session _ _ _ "CA1" sample_session_reachable Hl).
Defined.


(** C10, for a first call that cannot be placed. *)
Lemma provisional_entry_survives_failure_witness :
  reachable sample_url true sample_loads sample_tts init
  ∧ true = true
  ∧ ∃ s' l,
      start_phone_interview true (CallRaises "unreachable") sample_request init
      = (Raise (HTTPException 500 "Failed to initiate call: unreachable"), s')
      ∧ interview_contexts s' !! "pending_+15551234567" = Some l
      ∧ heap s' !! l = Some {| jd := Some "Backend Engineer JD";
                               resume := Some "5 yrs Python resume";
                               conversation := None; evaluation := None |}
      ∧ interview_contexts s' ≠ interview_contexts init.
Proof.
  assert (Hr : reachable sample_url true sample_loads sample_tts init)
    by apply rtc_refl.
  split; [exact Hr|]. split; [reflexivity|].
  exact (provisional_entry_survives_failure sample_url true sample_loads sample_tts
           init "unreachable" sample_request Hr eq_refl).
Defined.



(** C3, for an answer that is no JSON. *)
Lemma evaluate_interview_never_raises_witness :
  evaluation_failed sample_loads (CompletionContent (Some "I cannot score this.")) = true
  ∧ (evaluate_interview sample_loads (CompletionContent (Some "I cannot score this."))
       "CA1" 0 sample_session).1 = Ok fallback_evaluation.
Proof.
  assert (Hf : evaluation_failed sample_loads
                 (CompletionContent (Some "I cannot score this.")) = true)
    by (vm_compute; reflexivity).
  split; [exact Hf|].
  exact (proj1 (proj2 (evaluate_interview_never_raises sample_loads
                         (CompletionContent (Some "I cannot score this."))
                         "CA1" 0 sample_session)) Hf).
Defined.

(** ** Further concrete runs *)

Lemma sample_two_calls_reachable :
  reachable sample_url true sample_loads sample_tts sample_two_calls.
Proof.
  unfold reachable. eapply rtc_r; [apply sample_session_reachable|].
  apply step_start_phone_interview.
Qed.

Lemma sample_one_exchange_reachable :
  reachable sample_url true sample_loads sample_tts sample_one_exchange.
Proof.
  unfold reachable. eapply rtc_r; [apply sample_session_reachable|].
  apply step_process_response.
Qed.

Example list_logs_of_two_calls :
  (list_logs
     (twilio_status_callback sample_loads (CompletionRaises "down") sample_later
        sample_later "CA2" "busy" sample_one_exchange_then_second).2).1
  = Ok [ {| sum_call_sid := "CA2"; sum_timestamp := "2026-11-03T09:06:30";
            sum_status := "busy"; sum_exchange_count := 0 |};
         {| sum_call_sid := "CA1"; sum_timestamp := "2026-11-03T09:05:00.000012";
            sum_status := "in_progress"; sum_exchange_count := 1 |} ].
Proof. vm_compute. reflexivity. Qed.


(** X2: a turn of the first call, seen from the second. *)
Lemma process_response_other_sessions_witness :
  reachable sample_url true sample_loads sample_tts sample_two_calls
  ∧ "CA2" ≠ "CA1"
  ∧ interview_contexts
      (process_response sample_url sample_tts (CompletionContent (Some "Tell me more."))
         sample_now "CA1" "Hello" sample_two_calls).2 !! "CA2"
    = interview_contexts sample_two_calls !! "CA2"
  ∧ session
      (process_response sample_url sample_tts (CompletionContent (Some "Tell me more."))
         sample_now "CA1" "Hello" sample_two_calls).2 "CA2"
    = session sample_two_calls "CA2".
Proof.
  assert (Hne : "CA2" ≠ "CA1") by discriminate.
  split; [exact sample_two_calls_reachable|]. split; [exact Hne|].
  exact (process_response_other_sessions sample_url true sample_loads sample_tts
           _ sample_now "CA1" "Hello" sample_two_calls "CA2"
           sample_two_calls_reachable Hne).
Defined.

(** X3: the first call completes, seen from the second. *)
Lemma twilio_status_callback_other_sessions_witness :
  reachable sample_url true sample_loads sample_tts sample_two_calls
  ∧ "CA2" ≠ "CA1"
  ∧ interview_contexts
      (twilio_status_callback sample_loads (CompletionRaises "down") sample_now
         sample_now "CA1" "completed" sample_two_calls).2 !! "CA2"
    = interview_contexts sample_two_calls !! "CA2"
  ∧ session
      (twilio_status_callback sample_loads (CompletionRaises "down") sample_now
         sample_now "CA1" "completed" sample_two_calls).2 "CA2"
    = session sample_two_calls "CA2".
Proof.
  assert (Hne : "CA2" ≠ "CA1") by discriminate.
  split; [exact sample_two_calls_reachable|]. split; [exact Hne|].
  exact (twilio_status_callback_other_sessions sample_url true sample_loads sample_tts
           _ sample_now sample_now "CA1" "completed" sample_two_calls "CA2"
           sample_two_calls_reachable Hne).
Defined.

(** X4: a turn that is answered and one that is not. *)
Lemma transcript_length_after_turns_witness :
  reachable sample_url true sample_loads sample_tts sample_session
  ∧ is_Some (interview_contexts sample_session !! "CA1")
  ∧ length
      (transcript
         (turns sample_url sample_tts
            [ (CompletionContent (Some "Q2"), sample_now, "A1");
              (CompletionRaises "timeout", sample_now, "A2") ]
            "CA1" sample_session) "CA1")
    = length (transcript sample_session "CA1")
      + sum_list ((λ x : completion * datetime * string, entries_added x.1.1)
                    <$> [ (CompletionContent (Some "Q2"), sample_now, "A1");
                          (CompletionRaises "timeout", sample_now, "A2") ]).
Proof.
  assert (Hl : is_Some (interview_contexts sample_session !! "CA1"))
    by (vm_compute; eauto).
  split; [exact sample_session_reachable|]. split; [exact Hl|].
  exact (transcript_length_after_turns sample_url true sample_loads sample_tts
           _ "CA1" sample_session sample_session_reachable Hl).
Defined.

(** X5: the fifth call of a fresh session. *)
Lemma hangs_up_at_fifth_exchange_witness :
  reachable sample_url true sample_loads sample_tts sample_session
  ∧ transcript sample_session "CA1" = []
  ∧ ends_call
      (process_response sample_url sample_tts (CompletionContent (Some "Thanks."))
         sample_now "CA1" "A5"
         (turns sample_url sample_tts
            (returned <$> [ (Some "Q2", sample_now, "A1"); (Some "Q3", sample_now, "A2");
                            (Some "Q4", sample_now, "A3"); (Some "Q5", sample_now, "A4") ])
            "CA1" sample_session)).1
    = (4 <=? length [ (Some "Q2", sample_now, "A1"); (Some "Q3", sample_now, "A2");
                      (Some "Q4", sample_now, "A3"); (Some "Q5", sample_now, "A4") ]).
Proof.
  assert (Ht : transcript sample_session "CA1" = []) by (vm_compute; reflexivity).
  split; [exact sample_session_reachable|]. split; [exact Ht|].
  exact (hangs_up_at_fifth_exchange sample_url true sample_loads sample_tts
           sample_session "CA1" _ (Some "Thanks.") sample_now "A5"
           sample_session_reachable Ht).
Defined.

(** X6: a completion without content. *)
Lemma returned_turn_is_recorded_witness :
  reachable sample_url true sample_loads sample_tts sample_session
  ∧ ∃ s' r,
      process_response sample_url sample_tts (CompletionContent None)
        sample_now "CA1" "Hello" sample_session
      = (Ok (turn_response sample_url "CA1" apology (length (transcript s' "CA1"))), s')
      ∧ transcript s' "CA1"
        = transcript sample_session "CA1"
          ++ [Message user (Some "Hello"); Message assistant None]
      ∧ log_writes s' = log_writes sample_session ++ [r]
      ∧ log_conversation r = transcript s' "CA1".
Proof.
  split; [exact sample_session_reachable|].
  destruct (returned_turn_is_recorded sample_url true sample_loads sample_tts
              None sample_now "CA1" "Hello" sample_session sample_session_reachable)
    as (s' & r & Hrun & _ & Ht & Hw & _ & _ & Hconv & _).
  exists s', r. split; [exact Hrun|]. split; [exact Ht|]. split; [exact Hw|exact Hconv].
Defined.

(** X7: the first call placed. *)
Lemma start_phone_interview_registers_witness :
  reachable sample_url true sample_loads sample_tts init
  ∧ true = true
  ∧ ∃ s',
      start_phone_interview true (CallCreated "CA1") sample_request init
      = (Ok ("CA1", "calling"), s')
      ∧ session s' "CA1" = Some {| jd := Some "Backend Engineer JD";
                                   resume := Some "5 yrs Python resume";
                                   conversation := None; evaluation := None |}
      ∧ transcript s' "CA1" = [].
Proof.
  assert (Hr : reachable sample_url true sample_loads sample_tts init)
    by apply rtc_refl.
  split; [exact Hr|]. split; [reflexivity|].
  destruct (start_phone_interview_registers sample_url true sample_loads sample_tts
              "CA1" sample_request init Hr eq_refl)
    as (s' & Hrun & Hs & Ht & _).
  exists s'. split; [exact Hrun|]. split; [exact Hs|exact Ht].
Defined.

(** X8: no credentials. *)
Lemma start_phone_interview_outcome_witness :
  false = false
  ∧ start_phone_interview false (CallCreated "CA1") sample_request sample_session
    = (Raise (HTTPException 500 "Twilio credentials not configured"), sample_session).
Proof.
  split; [reflexivity|].
  exact (proj2 (proj2 (start_phone_interview_outcome false (CallCreated "CA1")
                         sample_request sample_session)) eq_refl).
Defined.

(** X9: the first call is answered. *)
Lemma twilio_voice_webhook_changes_no_session_witness :
  reachable sample_url true sample_loads sample_tts sample_one_exchange
  ∧ ∃ response s',
      twilio_voice_webhook sample_url sample_tts "CA1" sample_one_exchange
      = (Ok response, s')
      ∧ interview_contexts s' = interview_contexts sample_one_exchange
      ∧ transcript s' "CA1" = transcript sample_one_exchange "CA1".
Proof.
  split; [exact sample_one_exchange_reachable|].
  destruct (twilio_voice_webhook_changes_no_session sample_url true sample_loads
              sample_tts "CA1" sample_one_exchange sample_one_exchange_reachable)
    as (s' & Hrun & Hreg & Hs & _).
  eexists _, s'. split; [exact Hrun|]. split; [exact Hreg|]. exact (proj2 (Hs "CA1")).
Defined.

(** X10: a backend that would synthesise everything. *)
Lemma responses_play_no_audio_witness :
  reachable sample_url true sample_loads (λ _ filename, Some filename) sample_session
  ∧ ∃ response s',
      process_response sample_url (λ _ filename, Some filename)
        (CompletionContent (Some "Tell me more.")) sample_now "CA1" "Hello"
        sample_session = (Ok response, s')
      ∧ existsb plays_audio response = false.
Proof.
  assert (Hr : reachable sample_url true sample_loads (λ _ filename, Some filename)
                 sample_session).
  { unfold reachable. eapply rtc_r; [apply rtc_refl|].
    rewrite <- sample_session_started. apply step_start_phone_interview. }
  split; [exact Hr|].
  exact (proj1 (responses_play_no_audio sample_url true sample_loads
                  (λ _ filename, Some filename) _ sample_now "CA1" "Hello"
                  sample_session Hr)).
Defined.


(** X12: the line is busy. *)
Lemma unanswered_call_is_logged_unevaluated_witness :
  reachable sample_url true sample_loads sample_tts sample_session
  ∧ is_Some (interview_contexts sample_session !! "CA1")
  ∧ "busy" ∈ ["failed"; "busy"; "no-answer"]
  ∧ ∃ s' r,
      twilio_status_callback sample_loads (CompletionRaises "down") sample_now
        sample_now "CA1" "busy" sample_session = (Ok "ok", s')
      ∧ log_writes s' = log_writes sample_session ++ [r]
      ∧ log_status r = "busy"
      ∧ log_evaluation r = JNull
      ∧ eval_calls s' = eval_calls sample_session
      ∧ patches s' = patches sample_session.
Proof.
  assert (Hl : is_Some (interview_contexts sample_session !! "CA1"))
    by (vm_compute; eauto).
  assert (Hst : "busy" ∈ ["failed"; "busy"; "no-answer"])
    by (apply elem_of_cons; right; apply elem_of_cons; by left).
  split; [exact sample_session_reachable|]. split; [exact Hl|]. split; [exact Hst|].
  destruct (unanswered_call_is_logged_unevaluated sample_url true sample_loads sample_tts
              (CompletionRaises "down") sample_now sample_now "CA1" "busy"
              sample_session sample_session_reachable Hl Hst)
    as (s' & r & Hrun & Hw & _ & Hstatus & _ & Hev & _ & _ & Hcalls & Hpatches).
  exists s', r. split; [exact Hrun|]. split; [exact Hw|]. split; [exact Hstatus|].
  split; [exact Hev|]. split; [exact Hcalls|exact Hpatches].
Defined.

(** X13: a call with one exchange completes and the client reports REJECT. *)
Lemma completed_call_is_evaluated_witness :
  reachable sample_url true sample_loads sample_tts sample_one_exchange
  ∧ interview_contexts sample_one_exchange !! "CA1" = Some 0
  ∧ 2 ≤ length (transcript sample_one_exchange "CA1")
  ∧ ∃ s' r,
      twilio_status_callback sample_loads
        (CompletionContent (Some sample_completion_text)) sample_later sample_later
        "CA1" "completed" sample_one_exchange = (Ok "ok", s')
      ∧ log_writes s' = log_writes sample_one_exchange ++ [r]
      ∧ log_evaluation r = sample_evaluation
      ∧ patch_status <$> patches s' = ["rejected"].
Proof.
  assert (Hl : interview_contexts sample_one_exchange !! "CA1" = Some 0)
    by (vm_compute; reflexivity).
  assert (Hlen : 2 ≤ length (transcript sample_one_exchange "CA1"))
    by (vm_compute; lia).
  split; [exact sample_one_exchange_reachable|]. split; [exact Hl|]. split; [exact Hlen|].
  destruct (completed_call_is_evaluated sample_url true sample_loads sample_tts
              (CompletionContent (Some sample_completion_text)) sample_later
              sample_later "CA1" 0 sample_one_exchange
              sample_one_exchange_reachable Hl Hlen)
    as (s' & r & v & Hrun & Hv & Hw & _ & _ & Hev & _ & _ & Hp).
  assert (Hval : v = sample_evaluation).
  { vm_compute in Hv. by injection Hv as <-. }
  rewrite Hval in Hev, Hp.
  exists s', r. split; [exact Hrun|]. split; [exact Hw|]. split; [exact Hev|].
  rewrite Hp. vm_compute. reflexivity.
Defined.

(** X14: the evaluation client is down. *)
Lemma failed_evaluation_is_reported_rejected_witness :
  reachable sample_url true sample_loads sample_tts sample_one_exchange
  ∧ is_Some (interview_contexts sample_one_exchange !! "CA1")
  ∧ 2 ≤ length (transcript sample_one_exchange "CA1")
  ∧ evaluation_failed sample_loads (CompletionRaises "down") = true
  ∧ ∃ s' r p,
      twilio_status_callback sample_loads (CompletionRaises "down") sample_later
        sample_later "CA1" "completed" sample_one_exchange = (Ok "ok", s')
      ∧ log_writes s' = log_writes sample_one_exchange ++ [r]
      ∧ log_evaluation r = fallback_evaluation
      ∧ patches s' = patches sample_one_exchange ++ [p]
      ∧ patch_status p = "rejected".
Proof.
  assert (Hl : is_Some (interview_contexts sample_one_exchange !! "CA1"))
    by (vm_compute; eauto).
  assert (Hlen : 2 ≤ length (transcript sample_one_exchange "CA1"))
    by (vm_compute; lia).
  assert (Hf : evaluation_failed sample_loads (CompletionRaises "down") = true)
    by reflexivity.
  split; [exact sample_one_exchange_reachable|]. split; [exact Hl|].
  split; [exact Hlen|]. split; [exact Hf|].
  destruct (failed_evaluation_is_reported_rejected sample_url true sample_loads
              sample_tts (CompletionRaises "down") sample_later sample_later "CA1"
              sample_one_exchange sample_one_exchange_reachable Hl Hlen Hf)
    as (s' & r & p & Hrun & Hw & Hev & _ & Hp & _ & Hstatus & _).
  exists s', r, p. split; [exact Hrun|]. split; [exact Hw|]. split; [exact Hev|].
  split; [exact Hp|exact Hstatus].
Defined.

(** X15: a call that was never logged. *)
Lemma get_log_reads_last_write_witness :
  (∀ r, r ∈ log_writes sample_session → log_call_sid r ≠ "CA1")
  ∧ get_log "CA1" sample_session
    = (Raise (HTTPException 404 "Log not found"), sample_session).
Proof.
  assert (Hnone : ∀ r, r ∈ log_writes sample_session → log_call_sid r ≠ "CA1").
  { intros r Hin. apply not_elem_of_nil in Hin. destruct Hin. }
  split; [exact Hnone|].
  exact (proj2 (proj1 (proj2 (get_log_reads_last_write "CA1" sample_session))) Hnone).
Defined.

(** X16: a record is written and read back. *)
Lemma get_log_after_save_witness :
  heap sample_session !! 0 = Some (new_context sample_request)
  ∧ get_log "CA1" (save_conversation_log sample_now "CA1" 0 "in_progress"
                     sample_session).2
    = (Ok (make_log_data sample_now "CA1" (new_context sample_request) "in_progress"),
       (save_conversation_log sample_now "CA1" 0 "in_progress" sample_session).2).
Proof.
  assert (Hc : heap sample_session !! 0 = Some (new_context sample_request))
    by reflexivity.
  split; [exact Hc|].
  exact (proj1 (get_log_after_save sample_now "CA1" 0 "in_progress" _ sample_session Hc)).
Defined.

(** X17: the log of a completed call. *)
Lemma get_log_after_finalisation_witness :
  reachable sample_url true sample_loads sample_tts sample_one_exchange
  ∧ is_Some (interview_contexts sample_one_exchange !! "CA1")
  ∧ terminal "completed" = true
  ∧ ∃ s' r,
      twilio_status_callback sample_loads (CompletionRaises "down") sample_later
        sample_later "CA1" "completed" sample_one_exchange = (Ok "ok", s')
      ∧ get_log "CA1" s' = (Ok r, s')
      ∧ log_status r = "completed"
      ∧ log_conversation r = transcript sample_one_exchange "CA1"
      ∧ session s' "CA1" = None.
Proof.
  assert (Hl : is_Some (interview_contexts sample_one_exchange !! "CA1"))
    by (vm_compute; eauto).
  assert (Ht : terminal "completed" = true) by reflexivity.
  split; [exact sample_one_exchange_reachable|]. split; [exact Hl|]. split; [exact Ht|].
  destruct (get_log_after_finalisation sample_url true sample_loads sample_tts
              (CompletionRaises "down") sample_later sample_later "CA1" "completed"
              sample_one_exchange sample_one_exchange_reachable Hl Ht)
    as (s' & r & Hrun & Hget & _ & Hstatus & Hconv & Hgone).
  exists s', r. split; [exact Hrun|]. split; [exact Hget|]. split; [exact Hstatus|].
  split; [exact Hconv|exact Hgone].
Defined.

(** X19: a minute and a half apart. *)
Lemma isoformat_order_is_chronological_witness :
  valid sample_now ∧ valid sample_later
  ∧ String.compare (isoformat sample_now) (isoformat sample_later)
    = datetime_compare sample_now sample_later.
Proof.
  assert (Ha : valid sample_now)
    by (unfold valid; cbn [year month day hour minute second microsecond sample_now]; lia).
  assert (Hb : valid sample_later)
    by (unfold valid; cbn [year month day hour minute second microsecond sample_later];
        lia).
  split; [exact Ha|]. split; [exact Hb|].
  exact (isoformat_order_is_chronological sample_now sample_later Ha Hb).
Defined.

(** X20: the fenced answer of the samples. *)
Lemma json_fence_is_unwrapped_witness :
  PyStr.strip sample_completion_text
  = "" +:+ "```json"
    +:+ (String (ascii_of_nat 10) sample_evaluation_text +:+ String (ascii_of_nat 10) "")
    +:+ "```" +:+ ""
  ∧ PyStr.contains "`" "" = false
  ∧ PyStr.contains "`"
      (String (ascii_of_nat 10) sample_evaluation_text +:+ String (ascii_of_nat 10) "")
    = false
  ∧ PyStr.contains "```json"
      ((String (ascii_of_nat 10) sample_evaluation_text +:+ String (ascii_of_nat 10) "")
       +:+ "```" +:+ "") = false
  ∧ fenced_payload sample_completion_text
    = PyStr.strip
        (String (ascii_of_nat 10) sample_evaluation_text +:+ String (ascii_of_nat 10) "").
Proof.
  assert (H1 : PyStr.strip sample_completion_text
               = "" +:+ "```json"
                 +:+ (String (ascii_of_nat 10) sample_evaluation_text
                      +:+ String (ascii_of_nat 10) "")
                 +:+ "```" +:+ "") by (vm_compute; reflexivity).
  assert (H2 : PyStr.contains "`" "" = false) by reflexivity.
  assert (H3 : PyStr.contains "`"
                 (String (ascii_of_nat 10) sample_evaluation_text
                  +:+ String (ascii_of_nat 10) "") = false) by (vm_compute; reflexivity).
  assert (H4 : PyStr.contains "```json"
                 ((String (ascii_of_nat 10) sample_evaluation_text
                   +:+ String (ascii_of_nat 10) "") +:+ "```" +:+ "") = false)
    by (vm_compute; reflexivity).
  split; [exact H1|]. split; [exact H2|]. split; [exact H3|]. split; [exact H4|].
  exact (json_fence_is_unwrapped sample_completion_text _ _ _ H1 H2 H3 H4).
Defined.

(** X21: the same answer in a fence that names no language. *)
Lemma plain_fence_is_unwrapped_witness :
  PyStr.strip sample_plain_fence_text
  = "" +:+ "```"
    +:+ (String (ascii_of_nat 10) sample_evaluation_text +:+ String (ascii_of_nat 10) "")
    +:+ "```" +:+ ""
  ∧ PyStr.contains "`" "" = false
  ∧ PyStr.contains "`"
      (String (ascii_of_nat 10) sample_evaluation_text +:+ String (ascii_of_nat 10) "")
    = false
  ∧ PyStr.contains "```json" (PyStr.strip sample_plain_fence_text) = false
  ∧ fenced_payload sample_plain_fence_text
    = PyStr.strip
        (String (ascii_of_nat 10) sample_evaluation_text +:+ String (ascii_of_nat 10) "").
Proof.
  assert (H1 : PyStr.strip sample_plain_fence_text
               = "" +:+ "```"
                 +:+ (String (ascii_of_nat 10) sample_evaluation_text
                      +:+ String (ascii_of_nat 10) "")
                 +:+ "```" +:+ "") by (vm_compute; reflexivity).
  assert (H2 : PyStr.contains "`" "" = false) by reflexivity.
  assert (H3 : PyStr.contains "`"
                 (String (ascii_of_nat 10) sample_evaluation_text
                  +:+ String (ascii_of_nat 10) "") = false) by (vm_compute; reflexivity).
  assert (H4 : PyStr.contains "```json" (PyStr.strip sample_plain_fence_text) = false)
    by (vm_compute; reflexivity).
  split; [exact H1|]. split; [exact H2|]. split; [exact H3|]. split; [exact H4|].
  exact (plain_fence_is_unwrapped sample_plain_fence_text _ _ _ H1 H2 H3 H4).
Defined.


(** X23: a room that is created and a bot that starts. *)
Lemma start_interview_spawns_after_both_requests_witness :
  (start_interview (Some "key") sample_room_reply sample_token_reply true
     sample_web_request).1 = Started "https://firstround.daily.co/room1"
  ∧ ∃ name bot_token,
      (start_interview (Some "key") sample_room_reply sample_token_reply true
         sample_web_request).2
      = [ PostRooms; PostMeetingTokens name;
          Popen [ "python"; "bot_runner.py"; "-u"; "https://firstround.daily.co/room1";
                  "-t"; bot_token; "--jd"; web_jd sample_web_request;
                  "--resume"; web_resume sample_web_request ] ].
Proof.
  assert (H : (start_interview (Some "key") sample_room_reply sample_token_reply true
                 sample_web_request).1 = Started "https://firstround.daily.co/room1")
    by reflexivity.
  split; [exact H|].
  exact (proj1 (proj1 (start_interview_spawns_after_both_requests (Some "key")
                         sample_room_reply sample_token_reply true sample_web_request)
                  "https://firstround.daily.co/room1") H).
Defined.

(** X24: a turn for a call that was never started. *)
Lemma unregistered_call_starts_empty_session_witness :
  reachable sample_url true sample_loads sample_tts sample_session
  ∧ interview_contexts sample_session !! "CA9" = None
  ∧ session (process_response sample_url sample_tts (CompletionContent (Some "Hi."))
               sample_now "CA9" "Hello" sample_session).2 "CA9"
    = Some {| jd := Some ""; resume := Some "";
              conversation := Some [Message user (Some "Hello");
                                    Message assistant (Some "Hi.")];
              evaluation := None |}
  ∧ session (process_response sample_url sample_tts (CompletionRaises "timeout")
               sample_now "CA9" "Hello" sample_session).2 "CA9"
    = None.
Proof.
  assert (Hl : interview_contexts sample_session !! "CA9" = None)
    by (vm_compute; reflexivity).
  split; [exact sample_session_reachable|]. split; [exact Hl|].
  exact (unregistered_call_starts_empty_session sample_url true sample_loads sample_tts
           (Some "Hi.") "timeout" sample_now "CA9" "Hello" sample_session
           sample_session_reachable Hl).
Defined.

(** X25: an interview of two exchanges. *)
Lemma completed_interview_is_logged_witness :
  reachable sample_url true sample_loads sample_tts sample_session
  ∧ is_Some (interview_contexts sample_session !! "CA1")
  ∧ transcript sample_session "CA1" = []
  ∧ [ (Some "Q2", sample_now, "A1"); (Some "Q3", sample_now, "A2") ] ≠ []
  ∧ ∃ s' r,
      twilio_status_callback sample_loads (CompletionRaises "down") sample_later
        sample_later "CA1" "completed"
        (turns sample_url sample_tts
           (returned <$> [ (Some "Q2", sample_now, "A1"); (Some "Q3", sample_now, "A2") ])
           "CA1" sample_session)
      = (Ok "ok", s')
      ∧ get_log "CA1" s' = (Ok r, s')
      ∧ log_status r = "completed"
      ∧ log_exchange_count r = 2.
Proof.
  assert (Hl : is_Some (interview_contexts sample_session !! "CA1"))
    by (vm_compute; eauto).
  assert (Ht : transcript sample_session "CA1" = []) by (vm_compute; reflexivity).
  assert (Hxs : [ (Some "Q2", sample_now, "A1"); (Some "Q3", sample_now, "A2") ]
                ≠ ([] : list (option string * datetime * string))) by discriminate.
  split; [exact sample_session_reachable|]. split; [exact Hl|]. split; [exact Ht|].
  split; [exact Hxs|].
  destruct (completed_interview_is_logged sample_url true sample_loads sample_tts
              sample_session "CA1" _ (CompletionRaises "down") sample_later
              sample_later sample_session_reachable Hl Ht Hxs)
    as (l & s' & r & v & _ & _ & Hrun & Hget & Hstatus & _ & Hcount & _).
  exists s', r. split; [exact Hrun|]. split; [exact Hget|]. split; [exact Hstatus|].
  exact Hcount.
Defined.
